(** * The api package's trust boundary: webhook signatures and dbAuth sessions

    A shallow embedding of [packages/api/src/functions/secureHandler.ts]
    (sign, verify, verifySignature) and of the session-cookie side of
    [DbAuthHandler], whose behaviour is fixed by [DbAuthHandler.test.js].

    Conventions of the embedding:
    - a JavaScript string is a [string] (a sequence of bytes; UTF-8 text);
    - an integer-valued JavaScript number is a [Z];
    - [undefined] is [None];
    - a function that can [throw] returns a [result];
    - a JavaScript object used as a dictionary (headers, query-string
      parameters) is a [gmap string string]. *)

From Stdlib Require Import ZArith NArith List String Ascii Bool Lia.
From Stdlib Require Import DecimalString DecimalN.
From stdpp Require Import base option strings gmap.

Local Open Scope string_scope.
Local Open Scope Z_scope.

#[local] Arguments String.append !s1 s2 / : simpl nomatch.

(** ** Outcomes: a value, or a thrown error *)

Inductive result (E A : Type) : Type :=
| Ok (a : A)
| Throw (e : E).
Arguments Ok {E A} a.
Arguments Throw {E A} e.

#[global] Instance result_ret {E} : MRet (result E) := fun _ a => Ok a.

#[global] Instance result_bind {E} : MBind (result E) :=
  fun _ _ k r =>
    match r with
    | Ok a => k a
    | Throw e => Throw e
    end.

(** [try { body } catch (e) { handler }] *)
Definition try_catch {E F A} (body : result E A) (handler : E -> result F A)
  : result F A :=
  match body with
  | Ok a => Ok a
  | Throw e => handler e
  end.

(** ** JavaScript strings *)

Module JsString.

Definition nonempty (s : string) : bool :=
  match s with
  | EmptyString => false
  | String _ _ => true
  end.

(** [all p s]: every character of [s] satisfies [p]. *)
Fixpoint all (p : ascii -> bool) (s : string) : bool :=
  match s with
  | EmptyString => true
  | String c r => p c && all p r
  end.

(** [contains c s]: the character [c] occurs in [s]. *)
Fixpoint contains (c : ascii) (s : string) : bool :=
  match s with
  | EmptyString => false
  | String d r => Ascii.eqb c d || contains c r
  end.

(** [span p s]: the longest prefix of [s] whose characters satisfy [p],
    and what follows it. *)
Fixpoint span (p : ascii -> bool) (s : string) : string * string :=
  match s with
  | EmptyString => (EmptyString, EmptyString)
  | String c r =>
      if p c then let '(a, b) := span p r in (String c a, b)
      else (EmptyString, s)
  end.

(** [strip_prefix p s = Some r] when [s = p ++ r]. *)
Fixpoint strip_prefix (p s : string) : option string :=
  match p with
  | EmptyString => Some s
  | String c p' =>
      match s with
      | EmptyString => None
      | String d s' => if Ascii.eqb c d then strip_prefix p' s' else None
      end
  end.

(** [s.split(sep)] for a one-character separator: never the empty list. *)
Fixpoint split (sep : ascii) (s : string) : list string :=
  match s with
  | EmptyString => [EmptyString]
  | String c r =>
      if Ascii.eqb c sep then EmptyString :: split sep r
      else match split sep r with
           | [] => [String c EmptyString]
           | p :: ps => String c p :: ps
           end
  end.

(** [parts.join(sep)] *)
Fixpoint join (sep : string) (parts : list string) : string :=
  match parts with
  | [] => EmptyString
  | [p] => p
  | p :: ps => p ++ sep ++ join sep ps
  end.

Definition is_upper (c : ascii) : bool :=
  let n := N_of_ascii c in (65 <=? n)%N && (n <=? 90)%N.

Definition lower_char (c : ascii) : ascii :=
  if is_upper c then ascii_of_N (N_of_ascii c + 32) else c.

(** [s.toLowerCase()] on ASCII text. *)
Fixpoint toLowerCase (s : string) : string :=
  match s with
  | EmptyString => EmptyString
  | String c r => String (lower_char c) (toLowerCase r)
  end.

Definition is_space (c : ascii) : bool :=
  let n := N_of_ascii c in
  (n =? 32)%N || ((9 <=? n)%N && (n <=? 13)%N).

Fixpoint trimStart (s : string) : string :=
  match s with
  | EmptyString => EmptyString
  | String c r => if is_space c then trimStart r else s
  end.

(** The text [String(v)] of a possibly undefined string. *)
Definition ToString (v : option string) : string :=
  match v with
  | Some s => s
  | None => "undefined"
  end.

(** What may follow a maximal run of [p]: nothing, or a character
    outside [p]. *)
Definition stops (p : ascii -> bool) (s : string) : Prop :=
  match s with
  | EmptyString => True
  | String c _ => p c = false
  end.

End JsString.

(** ** JavaScript numbers (integer-valued) *)

Module JsNumber.

Definition is_digit (c : ascii) : bool :=
  let n := N_of_ascii c in (48 <=? n)%N && (n <=? 57)%N.

(** The decimal digits of a natural number, without leading zeros. *)
Definition decimal (n : N) : string :=
  NilZero.string_of_uint (N.to_uint n).

(** [Number(s)] for a non-empty string of decimal digits [s]
    (what the capture group [(\d+)] yields); [0] on any other text,
    which the code never passes. *)
Definition Number (s : string) : Z :=
  match NilZero.uint_of_string s with
  | Some d => Z.of_N (N.of_uint d)
  | None => 0
  end.

Fixpoint strip_zeros_rev (s : list ascii) : list ascii :=
  match s with
  | "0"%char :: r => strip_zeros_rev r
  | _ => s
  end.

(** The significant digits of a decimal text: trailing zeros removed. *)
Definition significant (s : string) : string :=
  string_of_list_ascii
    (rev (strip_zeros_rev (rev (list_ascii_of_string s)))).

(** Number::toString for a natural number: plain decimal digits below
    10^21, and scientific notation [d.ddde+x] from 10^21 on.  The digits
    are those of the integer itself, which is what JavaScript prints for
    every safe integer and for every integer whose decimal expansion is
    the shortest text that reads back as the same number (10^21 is one). *)
Definition natToString (n : N) : string :=
  let ds := decimal n in
  if (n <? 10 ^ 21)%N then ds
  else
    match significant ds with
    | EmptyString => ds
    | String d EmptyString =>
        String d ("e+" ++ decimal (N.of_nat (String.length ds) - 1))
    | String d r =>
        String d ("." ++ r ++ "e+" ++ decimal (N.of_nat (String.length ds) - 1))
    end.

(** [String(z)], [`${z}`] and [z + '...'] for an integer-valued number. *)
Definition toString (z : Z) : string :=
  if z <? 0 then String "-" (natToString (Z.to_N (- z)))
  else natToString (Z.to_N z).

End JsNumber.

(** ** SHA-256 and HMAC (node's [crypto.createHmac('sha256', key)])

    FIPS 180-4 and RFC 2104 over bytes; a 32-bit word is a [Z] reduced
    modulo 2^32 after every addition and left shift. *)

Module Sha256.

Definition w32 (x : Z) : Z := x mod 2 ^ 32.
Definition add32 (x y : Z) : Z := w32 (x + y).
Definition rotr (n x : Z) : Z :=
  Z.lor (Z.shiftr x n) (w32 (Z.shiftl x (32 - n))).
Definition not32 (x : Z) : Z := Z.lxor x 0xffffffff.

Definition Ch (x y z : Z) : Z := Z.lxor (Z.land x y) (Z.land (not32 x) z).
Definition Maj (x y z : Z) : Z :=
  Z.lxor (Z.lxor (Z.land x y) (Z.land x z)) (Z.land y z).
Definition Sigma0 (x : Z) : Z :=
  Z.lxor (Z.lxor (rotr 2 x) (rotr 13 x)) (rotr 22 x).
Definition Sigma1 (x : Z) : Z :=
  Z.lxor (Z.lxor (rotr 6 x) (rotr 11 x)) (rotr 25 x).
Definition sigma0 (x : Z) : Z :=
  Z.lxor (Z.lxor (rotr 7 x) (rotr 18 x)) (Z.shiftr x 3).
Definition sigma1 (x : Z) : Z :=
  Z.lxor (Z.lxor (rotr 17 x) (rotr 19 x)) (Z.shiftr x 10).

Definition K : list Z :=
  [ 0x428A2F98; 0x71374491; 0xB5C0FBCF; 0xE9B5DBA5;
    0x3956C25B; 0x59F111F1; 0x923F82A4; 0xAB1C5ED5;
    0xD807AA98; 0x12835B01; 0x243185BE; 0x550C7DC3;
    0x72BE5D74; 0x80DEB1FE; 0x9BDC06A7; 0xC19BF174;
    0xE49B69C1; 0xEFBE4786; 0x0FC19DC6; 0x240CA1CC;
    0x2DE92C6F; 0x4A7484AA; 0x5CB0A9DC; 0x76F988DA;
    0x983E5152; 0xA831C66D; 0xB00327C8; 0xBF597FC7;
    0xC6E00BF3; 0xD5A79147; 0x06CA6351; 0x14292967;
    0x27B70A85; 0x2E1B2138; 0x4D2C6DFC; 0x53380D13;
    0x650A7354; 0x766A0ABB; 0x81C2C92E; 0x92722C85;
    0xA2BFE8A1; 0xA81A664B; 0xC24B8B70; 0xC76C51A3;
    0xD192E819; 0xD6990624; 0xF40E3585; 0x106AA070;
    0x19A4C116; 0x1E376C08; 0x2748774C; 0x34B0BCB5;
    0x391C0CB3; 0x4ED8AA4A; 0x5B9CCA4F; 0x682E6FF3;
    0x748F82EE; 0x78A5636F; 0x84C87814; 0x8CC70208;
    0x90BEFFFA; 0xA4506CEB; 0xBEF9A3F7; 0xC67178F2 ].

(** The eight working variables / the intermediate hash value. *)
Record state : Type := State
  { sa : Z; sb : Z; sc : Z; sd : Z; se : Z; sf : Z; sg : Z; sh : Z }.

Definition H0 : state :=
  State 0x6A09E667 0xBB67AE85 0x3C6EF372 0xA54FF53A
        0x510E527F 0x9B05688C 0x1F83D9AB 0x5BE0CD19.

(** Message schedule, most recent word first: [extend n ws] adds [n]
    words W_t = sigma1 W_(t-2) + W_(t-7) + sigma0 W_(t-15) + W_(t-16). *)
Fixpoint extend (n : nat) (ws : list Z) : list Z :=
  match n with
  | O => ws
  | S n' =>
      let x := add32 (add32 (sigma1 (nth 1 ws 0)) (nth 6 ws 0))
                     (add32 (sigma0 (nth 14 ws 0)) (nth 15 ws 0)) in
      extend n' (x :: ws)
  end.

Definition schedule (block : list Z) : list Z :=
  rev (extend 48 (rev block)).

Definition round (s : state) (kw : Z * Z) : state :=
  let '(k, w) := kw in
  let t1 := add32 (add32 (add32 (sh s) (Sigma1 (se s)))
                         (add32 (Ch (se s) (sf s) (sg s)) k)) w in
  let t2 := add32 (Sigma0 (sa s)) (Maj (sa s) (sb s) (sc s)) in
  State (add32 t1 t2) (sa s) (sb s) (sc s)
        (add32 (sd s) t1) (se s) (sf s) (sg s).

(** One 16-word block folded into the hash value. *)
Definition compress (h : state) (block : list Z) : state :=
  let s := fold_left round (combine K (schedule block)) h in
  State (add32 (sa h) (sa s)) (add32 (sb h) (sb s))
        (add32 (sc h) (sc s)) (add32 (sd h) (sd s))
        (add32 (se h) (se s)) (add32 (sf h) (sf s))
        (add32 (sg h) (sg s)) (add32 (sh h) (sh s)).

(** Big-endian bytes of a number, [n] of them. *)
Fixpoint be_bytes (n : nat) (x : Z) : list Z :=
  match n with
  | O => []
  | S n' => Z.shiftr x (8 * Z.of_nat n') mod 256 :: be_bytes n' x
  end.

(** Padding: a 1 bit, zeros, and the bit length in 64 bits, up to a
    multiple of 64 bytes. *)
Definition pad (msg : list Z) : list Z :=
  let len := Z.of_nat (length msg) in
  let zeros := Z.to_nat ((55 - len) mod 64) in
  msg ++ 0x80 :: repeat 0 zeros ++ be_bytes 8 (8 * len).

Fixpoint words (fuel : nat) (bytes : list Z) : list Z :=
  match fuel, bytes with
  | S f, b0 :: b1 :: b2 :: b3 :: r =>
      (((b0 * 256 + b1) * 256 + b2) * 256 + b3) :: words f r
  | _, _ => []
  end.

Fixpoint blocks (fuel : nat) (ws : list Z) (h : state) : state :=
  match fuel, ws with
  | S f, _ :: _ => blocks f (skipn 16 ws) (compress h (firstn 16 ws))
  | _, _ => h
  end.

Definition digest_words (s : state) : list Z :=
  [sa s; sb s; sc s; sd s; se s; sf s; sg s; sh s].

Definition sha256 (msg : list Z) : list Z :=
  let bytes := pad msg in
  let ws := words (length bytes) bytes in
  flat_map (be_bytes 4) (digest_words (blocks (length ws) ws H0)).

Definition xor_pad (c : Z) (key : list Z) : list Z :=
  map (fun b => Z.lxor b c) (key ++ repeat 0 (64 - length key)%nat).

(** RFC 2104 with a 64-byte block: a longer key is hashed first. *)
Definition hmac (key msg : list Z) : list Z :=
  let k := if (64 <? length key)%nat then sha256 key else key in
  sha256 (xor_pad 0x5c k ++ sha256 (xor_pad 0x36 k ++ msg)).

Definition bytes_of_string (s : string) : list Z :=
  map (fun c => Z.of_N (N_of_ascii c)) (list_ascii_of_string s).

Definition hex_digit (n : Z) : ascii :=
  if n <? 10 then ascii_of_N (Z.to_N (48 + n))
  else ascii_of_N (Z.to_N (87 + n)).

(** Lower-case hexadecimal text, two digits a byte. *)
Fixpoint hex (bytes : list Z) : string :=
  match bytes with
  | [] => EmptyString
  | b :: r =>
      String (hex_digit (b / 16 mod 16)) (String (hex_digit (b mod 16)) (hex r))
  end.

End Sha256.

(** ** secureHandler.ts *)

Module SecureHandler.
Import JsString JsNumber.

Definition ERROR_MESSAGE : string :=
  "You don't have access to invoke this function.".

Definition FIVE_MINUTES : Z := 5 * 60 * 1000.
Definition DEFAULT_TOLERANCE : Z := FIVE_MINUTES.

(** [ForbiddenError] of apollo-server-lambda: the only error thrown here. *)
Inductive error : Type :=
| ForbiddenError (message : string).

(** What the module reads from its host: the environment variable
    [process.env['WEBHOOK_SECRET']] and the clock [Date.now()]. *)
Record Env : Type :=
  { process_env_WEBHOOK_SECRET : option string;
    Date_now : Z }.

(** [process.env['WEBHOOK_SECRET'] || ''] *)
Definition WEBHOOK_SECRET (env : Env) : string :=
  match process_env_WEBHOOK_SECRET env with
  | Some s => s
  | None => ""
  end.

Definition WEBHOOK_SIGNTAURE_HEADER : string := "RW-WEBHOOK-SIGNATURE".

Record VerifyOptions : Type :=
  { tolerance : option Z;
    timestamp : option Z }.

(** The options object [{}]. *)
Definition no_options : VerifyOptions :=
  {| tolerance := None; timestamp := None |}.

(** The [Hmac] object of node's crypto: the key and the data fed so far. *)
Record Hmac : Type :=
  { hmac_key : string;
    hmac_data : string }.

Definition createHmac (key : string) : Hmac :=
  {| hmac_key := key; hmac_data := "" |}.

Definition update (h : Hmac) (data : string) : Hmac :=
  {| hmac_key := hmac_key h; hmac_data := hmac_data h ++ data |}.

(** [hmac.digest('hex')] *)
Definition digest_hex (h : Hmac) : string :=
  Sha256.hex (Sha256.hmac (Sha256.bytes_of_string (hmac_key h))
                          (Sha256.bytes_of_string (hmac_data h))).

Definition getHmac (secret : option string) : result error Hmac :=
  match secret with
  | None => Throw (ForbiddenError ERROR_MESSAGE)
  | Some s =>
      if String.eqb s "" then Throw (ForbiddenError ERROR_MESSAGE)
      else Ok (createHmac s)
  end.

(** The request as verify reads it. *)
Record APIGatewayProxyEvent : Type :=
  { body : option string;
    headers : option (gmap string string) }.

(** [event?.headers?.[WEBHOOK_SIGNTAURE_HEADER.toLocaleLowerCase()]] *)
Definition signatureFromEvent (event : APIGatewayProxyEvent) : option string :=
  match headers event with
  | Some hs => hs !! toLowerCase WEBHOOK_SIGNTAURE_HEADER
  | None => None
  end.

Definition sign (env : Env) (body : string) (secret : option string)
    (timestamp : option Z) : result error string :=
  let secret := default (WEBHOOK_SECRET env) secret in
  let timestamp := default (Date_now env) timestamp in
  hmac ← getHmac (Some secret);
  let hmac := update hmac (toString timestamp ++ "." ++ body) in
  mret ("t=" ++ toString timestamp ++ ",v1=" ++ digest_hex hmac).

Definition is_hex (c : ascii) : bool :=
  let n := N_of_ascii c in
  is_digit c || ((97 <=? n)%N && (n <=? 102)%N).

(** One attempt of [/t=(\d+),v1=([\da-f]+)/] at the start of [s].  Both
    groups are greedy; giving digits back never helps, since what must
    follow [\d+] is a comma and nothing must follow the second group. *)
Definition match_here (s : string) : option (string * string) :=
  match strip_prefix "t=" s with
  | None => None
  | Some r =>
      let '(stamp, r1) := span is_digit r in
      if nonempty stamp then
        match strip_prefix ",v1=" r1 with
        | None => None
        | Some r2 =>
            let '(digest, _) := span is_hex r2 in
            if nonempty digest then Some (stamp, digest) else None
        end
      else None
  end.

(** [/t=(\d+),v1=([\da-f]+)/.exec(s)]: the leftmost match, as the pair of
    its capture groups; the pattern is not anchored. *)
Fixpoint exec (s : string) : option (string * string) :=
  match match_here s with
  | Some m => Some m
  | None =>
      match s with
      | EmptyString => None
      | String _ r => exec r
      end
  end.

Definition verifySignature (env : Env) (body : string)
    (secret : option string) (signature : option string)
    (options : option VerifyOptions) : result error bool :=
  let secret := default (WEBHOOK_SECRET env) secret in
  let options := default no_options options in
  match exec (ToString signature) with
  | None => Throw (ForbiddenError ERROR_MESSAGE)
  | Some (m1, m2) =>
      let signedStamp := Number m1 in
      let payload := m2 in
      let timestamp := default (Date_now env) (timestamp options) in
      let tolerance := default DEFAULT_TOLERANCE (tolerance options) in
      let difference := Z.abs (timestamp - signedStamp) in
      if difference >? tolerance then Throw (ForbiddenError ERROR_MESSAGE)
      else
        hmac ← getHmac (Some secret);
        let hmac := update hmac (toString signedStamp ++ "." ++ body) in
        if String.eqb (digest_hex hmac) payload then Ok true
        else Throw (ForbiddenError ERROR_MESSAGE)
  end.

Definition verify (env : Env) (event : APIGatewayProxyEvent)
    (options : option VerifyOptions) : result error bool :=
  let body := match body event with
              | Some b => if nonempty b then b else ""
              | None => ""
              end in
  let signature := signatureFromEvent event in
  verifySignature env body (Some (WEBHOOK_SECRET env)) signature options.

(** A header that is, as a whole, [t=<digits>,v1=<hex>]. *)
Definition exact_envelope (s : string) : bool :=
  match match_here s with
  | Some (stamp, digest) => String.eqb s ("t=" ++ stamp ++ ",v1=" ++ digest)
  | None => false
  end.

Definition forbidden {A} : result error A :=
  Throw (ForbiddenError ERROR_MESSAGE).

(** The digest verifySignature computes for a secret, a signed time
    stamp and a body. *)
Definition expected_digest (secret : string) (signedStamp : Z) (body : string)
    : string :=
  digest_hex (update (createHmac secret) (toString signedStamp ++ "." ++ body)).

(** The text contains [t=<digits>,v1=<hex>] somewhere. *)
Definition contains_envelope (s : string) : Prop :=
  exists pre stamp digest post,
    s = pre ++ "t=" ++ stamp ++ ",v1=" ++ digest ++ post /\
    nonempty stamp = true /\ all is_digit stamp = true /\
    nonempty digest = true /\ all is_hex digest = true.

End SecureHandler.

(** The double-quote character. *)
Abbreviation dquote := (Ascii false true false false false true false false)
  (only parsing).

(** ** JSON ([JSON.stringify] without indentation, [JSON.parse])

    Values are trees; an object keeps its members in order.  Numbers are the
    integer-valued ones: the parser reads integer literals, and a literal
    with a fraction or an exponent lies outside the embedding. *)

Module Json.
Import JsString JsNumber.

#[local] Unset Elimination Schemes.

Inductive json : Type :=
| JNull
| JBool (b : bool)
| JNum (z : Z)
| JStr (s : string)
| JArr (elements : list json)
| JObj (members : list (string * json)).

#[local] Set Elimination Schemes.

Definition hex4 (n : N) : string :=
  let d k := Sha256.hex_digit (Z.of_N (N.shiftr n k mod 16)) in
  String (d 12%N) (String (d 8%N) (String (d 4%N) (String (d 0%N) EmptyString))).

(** QuoteJSONString, one character at a time. *)
Definition escape_char (c : ascii) : string :=
  let n := N_of_ascii c in
  if (n =? 34)%N then String "\" (String dquote EmptyString)
  else if (n =? 92)%N then "\\"
  else if (n =? 8)%N then "\b"
  else if (n =? 12)%N then "\f"
  else if (n =? 10)%N then "\n"
  else if (n =? 13)%N then "\r"
  else if (n =? 9)%N then "\t"
  else if (n <? 32)%N then "\u" ++ hex4 n
  else String c EmptyString.

Fixpoint escape (s : string) : string :=
  match s with
  | EmptyString => EmptyString
  | String c r => escape_char c ++ escape r
  end.

Definition quote (s : string) : string :=
  String dquote (escape s ++ String dquote EmptyString).

Fixpoint stringify (v : json) : string :=
  match v with
  | JNull => "null"
  | JBool true => "true"
  | JBool false => "false"
  | JNum z => toString z
  | JStr s => quote s
  | JArr l => "[" ++ join "," (map stringify l) ++ "]"
  | JObj l =>
      "{" ++ join "," (map (fun kv => quote (fst kv) ++ ":" ++ stringify (snd kv)) l)
          ++ "}"
  end.

(** JSON white space: space, tab, line feed, carriage return. *)
Definition is_ws (c : ascii) : bool :=
  let n := N_of_ascii c in
  (n =? 32)%N || (n =? 9)%N || (n =? 10)%N || (n =? 13)%N.

Fixpoint skip_ws (s : string) : string :=
  match s with
  | EmptyString => EmptyString
  | String c r => if is_ws c then skip_ws r else s
  end.

Definition hex_value (c : ascii) : option N :=
  let n := N_of_ascii c in
  if is_digit c then Some (n - 48)%N
  else if (97 <=? n)%N && (n <=? 102)%N then Some (n - 87)%N
  else if (65 <=? n)%N && (n <=? 70)%N then Some (n - 55)%N
  else None.

(** The UTF-8 bytes of a code point of the basic plane. *)
Definition utf8 (cp : N) : string :=
  if (cp <? 128)%N then String (ascii_of_N cp) EmptyString
  else if (cp <? 2048)%N then
    String (ascii_of_N (192 + N.shiftr cp 6))
      (String (ascii_of_N (128 + cp mod 64)) EmptyString)
  else
    String (ascii_of_N (224 + N.shiftr cp 12))
      (String (ascii_of_N (128 + N.shiftr cp 6 mod 64))
         (String (ascii_of_N (128 + cp mod 64)) EmptyString)).

(** The characters of a string literal after its opening quote, up to
    and including the closing quote. *)
Fixpoint parse_string (s : string) : option (string * string) :=
  match s with
  | EmptyString => None
  | String c r =>
      if (N_of_ascii c =? 34)%N then Some (EmptyString, r)
      else if (N_of_ascii c =? 92)%N then
        match r with
        | String e r' =>
            let lit (x : N) :=
              match parse_string r' with
              | Some (t, rest) => Some (String (ascii_of_N x) t, rest)
              | None => None
              end in
            match N_of_ascii e with
            | 34%N => lit 34%N
            | 92%N => lit 92%N
            | 47%N => lit 47%N
            | 98%N => lit 8%N
            | 102%N => lit 12%N
            | 110%N => lit 10%N
            | 114%N => lit 13%N
            | 116%N => lit 9%N
            | 117%N =>
                match r' with
                | String h3 (String h2 (String h1 (String h0 r''))) =>
                    match hex_value h3, hex_value h2, hex_value h1, hex_value h0 with
                    | Some a, Some b, Some c', Some d =>
                        match parse_string r'' with
                        | Some (t, rest) =>
                            Some (utf8 (((a * 16 + b) * 16 + c') * 16 + d) ++ t, rest)
                        | None => None
                        end
                    | _, _, _, _ => None
                    end
                | _ => None
                end
            | _ => None
            end
        | EmptyString => None
        end
      else if (N_of_ascii c <? 32)%N then None
      else
        match parse_string r with
        | Some (t, rest) => Some (String c t, rest)
        | None => None
        end
  end.

Definition leading_zero (ds : string) : bool :=
  match ds with
  | String c (String _ _) => Ascii.eqb c "0"
  | _ => false
  end.

Definition fraction_or_exponent (r : string) : bool :=
  match r with
  | String c _ => Ascii.eqb c "." || Ascii.eqb c "e" || Ascii.eqb c "E"
  | EmptyString => false
  end.

(** An integer literal: an optional minus sign, then [0] or digits that
    do not start with [0]; a fraction or exponent after it is refused. *)
Definition parse_number (s : string) : option (json * string) :=
  let '(neg, s1) := match strip_prefix "-" s with
                    | Some r => (true, r)
                    | None => (false, s)
                    end in
  let '(ds, r) := span is_digit s1 in
  if negb (nonempty ds) || leading_zero ds || fraction_or_exponent r then None
  else Some (JNum (if neg then - Number ds else Number ds), r).

Fixpoint parse_value (fuel : nat) (s : string) : option (json * string) :=
  match fuel with
  | O => None
  | S f =>
      match skip_ws s with
      | String "n" r =>
          match strip_prefix "ull" r with
          | Some r' => Some (JNull, r')
          | None => None
          end
      | String "t" r =>
          match strip_prefix "rue" r with
          | Some r' => Some (JBool true, r')
          | None => None
          end
      | String "f" r =>
          match strip_prefix "alse" r with
          | Some r' => Some (JBool false, r')
          | None => None
          end
      | String dquote r =>
          match parse_string r with
          | Some (t, r') => Some (JStr t, r')
          | None => None
          end
      | String "[" r =>
          match strip_prefix "]" (skip_ws r) with
          | Some r' => Some (JArr [], r')
          | None =>
              match parse_elements f r with
              | Some (l, r') => Some (JArr l, r')
              | None => None
              end
          end
      | String "{" r =>
          match strip_prefix "}" (skip_ws r) with
          | Some r' => Some (JObj [], r')
          | None =>
              match parse_members f r with
              | Some (l, r') => Some (JObj l, r')
              | None => None
              end
          end
      | s' => parse_number s'
      end
  end
with parse_elements (fuel : nat) (s : string) : option (list json * string) :=
  match fuel with
  | O => None
  | S f =>
      match parse_value f s with
      | None => None
      | Some (v, r) =>
          match skip_ws r with
          | String "," r' =>
              match parse_elements f r' with
              | Some (l, r'') => Some (v :: l, r'')
              | None => None
              end
          | String "]" r' => Some ([v], r')
          | _ => None
          end
      end
  end
with parse_members (fuel : nat) (s : string)
    : option (list (string * json) * string) :=
  match fuel with
  | O => None
  | S f =>
      match skip_ws s with
      | String dquote r =>
          match parse_string r with
          | None => None
          | Some (k, r1) =>
              match skip_ws r1 with
              | String ":" r2 =>
                  match parse_value f r2 with
                  | None => None
                  | Some (v, r3) =>
                      match skip_ws r3 with
                      | String "," r4 =>
                          match parse_members f r4 with
                          | Some (l, r5) => Some ((k, v) :: l, r5)
                          | None => None
                          end
                      | String "}" r4 => Some ([(k, v)], r4)
                      | _ => None
                      end
                  end
              | _ => None
              end
          end
      | _ => None
      end
  end.

(** [JSON.parse(s)]: [None] where it throws a SyntaxError. *)
Definition parse (s : string) : option json :=
  match parse_value (S (String.length s)) s with
  | Some (v, r) =>
      match skip_ws r with
      | EmptyString => Some v
      | _ => None
      end
  | None => None
  end.

(** [obj[key]] on a parsed value. *)
Fixpoint lookup_member (key : string) (l : list (string * json)) : option json :=
  match l with
  | [] => None
  | (k, v) :: r => if String.eqb k key then Some v else lookup_member key r
  end.

Definition get (key : string) (v : json) : option json :=
  match v with
  | JObj l => lookup_member key l
  | _ => None
  end.

(** Safe integers ([Number.isSafeInteger]): the numbers of a payload that
    JSON carries exactly. *)
Definition safe_integer (z : Z) : bool := Z.abs z <=? 2 ^ 53 - 1.

(** A JSON-serializable value: one that [JSON.stringify] and [JSON.parse]
    carry without change.  In this embedding, a tree whose numbers are
    safe integers. *)
Fixpoint serializable (v : json) : bool :=
  match v with
  | JNum z => safe_integer z
  | JArr l => forallb serializable l
  | JObj l => forallb (fun kv => serializable (snd kv)) l
  | _ => true
  end.

(** The induction principle of [json]: the elements of an array and the
    values of an object are covered. *)
Definition json_ind (P : json -> Prop)
    (Hnull : P JNull) (Hbool : forall b, P (JBool b))
    (Hnum : forall z, P (JNum z)) (Hstr : forall s, P (JStr s))
    (Harr : forall l, Forall P l -> P (JArr l))
    (Hobj : forall l, Forall (fun kv => P (snd kv)) l -> P (JObj l))
  : forall v, P v :=
  fix go (v : json) : P v :=
    match v with
    | JNull => Hnull
    | JBool b => Hbool b
    | JNum z => Hnum z
    | JStr s => Hstr s
    | JArr l =>
        Harr l ((fix all (l : list json) : Forall P l :=
                   match l with
                   | [] => @List.Forall_nil _ P
                   | e :: r => @List.Forall_cons _ P e _ (go e) (all r)
                   end) l)
    | JObj l =>
        Hobj l ((fix all (l : list (string * json))
                   : Forall (fun kv => P (snd kv)) l :=
                   match l with
                   | [] => @List.Forall_nil _ _
                   | kv :: r => @List.Forall_cons _ (fun kv => P (snd kv)) kv _ (go (snd kv)) (all r)
                   end) l)
    end.

(** The fuel [parse_value] needs for the text of a value. *)
Fixpoint weight (v : json) : nat :=
  match v with
  | JArr l => S (list_sum (map (fun e => S (weight e)) l))
  | JObj l => S (list_sum (map (fun kv => S (weight (snd kv))) l))
  | _ => 1
  end.

(** What follows a value inside a text: nothing, or [,], []] or [}]. *)
Definition closes (s : string) : bool :=
  match s with
  | EmptyString => true
  | String c _ => Ascii.eqb c "," || Ascii.eqb c "]" || Ascii.eqb c "}"
  end.

(** The first character of the text of a value. *)
Definition value_start (c : ascii) : bool :=
  is_digit c || Ascii.eqb c "-" || Ascii.eqb c "n" || Ascii.eqb c "t"
  || Ascii.eqb c "f" || Ascii.eqb c dquote || Ascii.eqb c "[" || Ascii.eqb c "{".

(** The text of one member of an object. *)
Definition member_text (kv : string * json) : string :=
  quote (fst kv) ++ ":" ++ stringify (snd kv).

(** What the induction gives for one value: its text reads back, with
    enough fuel, whatever closes it. *)
Definition reads_back (v : json) : Prop :=
  serializable v = true ->
  forall fuel rest,
    (weight v <= fuel)%nat -> closes rest = true ->
    parse_value fuel (stringify v ++ rest) = Some (v, rest).

End Json.

(** ** Dates ([Date.prototype.toUTCString]) *)

Module JsDate.
Import JsNumber.

Definition msPerDay : Z := 86400000.

(** Year, month (1..12) and day of the month of a day number counted
    from 1970-01-01, in the proleptic Gregorian calendar. *)
Definition civil_from_days (days : Z) : Z * Z * Z :=
  let z := days + 719468 in
  let era := z / 146097 in
  let doe := z - era * 146097 in
  let yoe := (doe - doe / 1460 + doe / 36524 - doe / 146096) / 365 in
  let doy := doe - (365 * yoe + yoe / 4 - yoe / 100) in
  let mp := (5 * doy + 2) / 153 in
  let d := doy - (153 * mp + 2) / 5 + 1 in
  let m := if mp <? 10 then mp + 3 else mp - 9 in
  let y := yoe + era * 400 + (if m <=? 2 then 1 else 0) in
  (y, m, d).

Definition day_name (i : Z) : string :=
  nth (Z.to_nat i) ["Sun"; "Mon"; "Tue"; "Wed"; "Thu"; "Fri"; "Sat"] "".

Definition month_name (m : Z) : string :=
  nth (Z.to_nat (m - 1))
    ["Jan"; "Feb"; "Mar"; "Apr"; "May"; "Jun";
     "Jul"; "Aug"; "Sep"; "Oct"; "Nov"; "Dec"] "".

(** A natural number in at least [width] decimal digits. *)
Definition pad_left (width : nat) (n : Z) : string :=
  let ds := decimal (Z.to_N n) in
  string_of_list_ascii (repeat "0"%char (width - String.length ds)) ++ ds.

(** [new Date(t).toUTCString()] for a time value [t] in milliseconds
    (years 0 to 9999). *)
Definition toUTCString (t : Z) : string :=
  let days := t / msPerDay in
  let ms := t mod msPerDay in
  let '(y, m, d) := civil_from_days days in
  day_name ((days + 4) mod 7) ++ ", " ++ pad_left 2 d ++ " "
    ++ month_name m ++ " " ++ pad_left 4 y ++ " "
    ++ pad_left 2 (ms / 3600000) ++ ":"
    ++ pad_left 2 (ms / 60000 mod 60) ++ ":"
    ++ pad_left 2 (ms / 1000 mod 60) ++ " GMT".

(** The time value of [new Date(1970, 0, 1)]: midnight of 1 January 1970
    in the host's time zone, [offset] being what [getTimezoneOffset()]
    returns there (minutes behind UTC: 480 for US Pacific time, 0 for
    UTC, -60 for Central Europe). *)
Definition local_epoch (offset : Z) : Z := offset * 60000.

End JsDate.

(** ** DbAuthHandler

    [DbAuthHandler.js] and [dbAuthErrors.js] are not among the source
    files; [DbAuthHandler.test.js] is.  The handler below is modelled from
    the specification and from what the tests fix. *)

Module DbAuth.
Import JsString JsNumber Json.

Inductive error : Type :=
| UsernameAndPasswordRequiredError
| FieldRequiredError
| UserNotFoundError
| IncorrectPasswordError
| DuplicateUsernameError
| NotLoggedInError
| SessionDecryptionError
| CsrfTokenMismatchError
| Error (message : string).

(** The libraries the handler calls: crypto-js for the session cipher
    ([encrypt] draws a random salt, here its third argument; [decrypt]
    is [None] where decrypting or decoding throws), jsonwebtoken for
    the bearer token, and the message texts of dbAuthErrors. *)
Class Libraries : Type :=
  { AES_encrypt : string -> string -> string -> string;
    AES_decrypt : string -> string -> option string;
    jwt_sign : json -> string -> string;
    dbAuthError_message : error -> string }.

Definition message `{Libraries} (e : error) : string :=
  match e with
  | Error m => m
  | _ => dbAuthError_message e
  end.

Record Event : Type :=
  { path : string;
    queryStringParameters : gmap string string;
    body : option string;
    headers : gmap string string }.

Record AuthFields : Type :=
  { id : string;
    username : string;
    hashedPassword : string;
    salt : string }.

(** A record of the credential store: field name to value. *)
Definition record : Type := list (string * json).

Record Options : Type :=
  { authFields : AuthFields;
    db : list record;
    excludeUserFields : list string;
    loginExpires : Z;
    authRoute : string }.

(** What the handler reads from its host: two environment variables, the
    clock, the time zone, and the salt the cipher draws. *)
Record Host : Type :=
  { SESSION_SECRET : string;
    SELF_HOST : string;
    Date_now : Z;
    timezoneOffset : Z;
    random_salt : string }.

Record DbAuthHandler : Type :=
  { event : Event;
    options : Options;
    host : Host }.

Record Response : Type :=
  { statusCode : Z;
    response_body : string;
    response_headers : gmap string string }.

(** The characters of the text CryptoJS prints for a ciphertext. *)
Definition is_base64 (c : ascii) : bool :=
  let n := N_of_ascii c in
  is_digit c || is_upper c || ((97 <=? n)%N && (n <=? 122)%N)
  || (n =? 43)%N || (n =? 47)%N || (n =? 61)%N.

(** Modelled from the spec: [PAST_EXPIRES_DATE] (DbAuthHandler.js is
    missing).  The test states it as [new Date(1970, 0, 1).toUTCString()]:
    midnight of 1 January 1970 in the host's time zone, printed in UTC. *)
Definition PAST_EXPIRES_DATE (h : Host) : string :=
  JsDate.toUTCString (JsDate.local_epoch (timezoneOffset h)).

(** Modelled from the spec: [_futureExpiresDate] (DbAuthHandler.js is
    missing): now plus the configured lifetime in seconds. *)
Definition _futureExpiresDate (this : DbAuthHandler) : string :=
  JsDate.toUTCString (Date_now (host this) + loginExpires (options this) * 1000).

(** The host name of [SELF_HOST], as the [Domain] attribute carries it. *)
Definition domain (h : Host) : string :=
  match strip_prefix "http://" (SELF_HOST h) with
  | Some d => d
  | None =>
      match strip_prefix "https://" (SELF_HOST h) with
      | Some d => d
      | None => SELF_HOST h
      end
  end.

Inductive expires : Type := now | future.

(** Modelled from the spec: [_cookieAttributes] (DbAuthHandler.js is
    missing): the six attributes in their fixed order. *)
Definition _cookieAttributes (this : DbAuthHandler) (e : expires) : list string :=
  [ "Path=/";
    "Domain=" ++ domain (host this);
    "HttpOnly";
    "SameSite=Strict";
    "Secure";
    "Expires=" ++ match e with
                  | now => PAST_EXPIRES_DATE (host this)
                  | future => _futureExpiresDate this
                  end ].

(** Modelled from the spec: [_deleteSessionHeader] (DbAuthHandler.js is
    missing). *)
Definition _deleteSessionHeader (this : DbAuthHandler) : gmap string string :=
  {[ "Set-Cookie" := join ";" ("session=" :: _cookieAttributes this now) ]}.

(** Modelled from the spec: [_createSessionHeader] (DbAuthHandler.js is
    missing): the plaintext is [JSON(payload) + ';' + csrfToken]. *)
Definition _createSessionHeader `{Libraries} (this : DbAuthHandler)
    (data : json) (csrfToken : string) : gmap string string :=
  let session := stringify data ++ ";" ++ csrfToken in
  let encrypted :=
    AES_encrypt session (SESSION_SECRET (host this)) (random_salt (host this)) in
  {[ "Set-Cookie" :=
       join ";" (("session=" ++ encrypted) :: _cookieAttributes this future) ]}.

(** A cookie pair [name=value], split at its first [=]. *)
Definition cookie_pair (p : string) : option (string * string) :=
  let '(name, r) := span (fun c => negb (Ascii.eqb c "=")) p in
  match r with
  | String _ value => Some (name, value)
  | EmptyString => None
  end.

Fixpoint find_cookie (name : string) (pairs : list string) : option string :=
  match pairs with
  | [] => None
  | p :: r =>
      match cookie_pair (trimStart p) with
      | Some (n, v) => if String.eqb n name then Some v else find_cookie name r
      | None => find_cookie name r
      end
  end.

(** Modelled from the spec: [_getSession] (DbAuthHandler.js is missing):
    the value of the cookie named exactly [session] among the pairs of
    the cookie header, which [;] or [; ] separates. *)
Definition _getSession (this : DbAuthHandler) : option string :=
  match headers (event this) !! "cookie" with
  | None => None
  | Some cookie => find_cookie "session" (split ";" cookie)
  end.

(** Modelled from the spec: [_decryptSession] (DbAuthHandler.js is
    missing).  [Ok None] is the empty result; the plaintext must split on
    exactly one [;] into the JSON payload and the CSRF token. *)
Definition _decryptSession `{Libraries} (this : DbAuthHandler)
    : result error (option (json * string)) :=
  match _getSession this with
  | None => Ok None
  | Some session =>
      if nonempty session then
        match AES_decrypt session (SESSION_SECRET (host this)) with
        | None => Throw SessionDecryptionError
        | Some decoded =>
            match split ";" decoded with
            | [data; csrf] =>
                match parse data with
                | Some payload => Ok (Some (payload, csrf))
                | None => Throw SessionDecryptionError
                end
            | _ => Throw SessionDecryptionError
            end
        end
      else Ok None
  end.

(** [a === b] on JSON values: arrays and objects are never identical to
    a freshly parsed one. *)
Definition strict_eq (a b : json) : bool :=
  match a, b with
  | JNull, JNull => true
  | JBool x, JBool y => Bool.eqb x y
  | JNum x, JNum y => x =? y
  | JStr x, JStr y => String.eqb x y
  | _, _ => false
  end.

(** [db.findUnique({ where: { [field]: value } })] *)
Definition findUnique (table : list record) (field : string) (value : json)
    : option record :=
  List.find (fun r => match lookup_member field r with
                      | Some v => strict_eq v value
                      | None => false
                      end) table.

Definition sanitize (excluded : list string) (user : record) : record :=
  List.filter (fun kv => negb (existsb (String.eqb (fst kv)) excluded)) user.

(** Modelled from the spec: [_getCurrentUser] (DbAuthHandler.js is
    missing): decrypts the cookie, resolves the user by the id of the
    payload, and strips the excluded fields. *)
Definition _getCurrentUser `{Libraries} (this : DbAuthHandler)
    : result error record :=
  session ← _decryptSession this;
  match session with
  | None => Throw NotLoggedInError
  | Some (payload, _) =>
      match get (id (authFields (options this))) payload with
      | None => Throw NotLoggedInError
      | Some userId =>
          match findUnique (db (options this))
                  (id (authFields (options this))) userId with
          | None => Throw UserNotFoundError
          | Some user => Ok (sanitize (excludeUserFields (options this)) user)
          end
      end
  end.

(** Modelled from the spec: [_logoutResponse] (DbAuthHandler.js is
    missing): an empty body, or [{"message": ...}], and the header that
    deletes the session cookie. *)
Definition _logoutResponse (this : DbAuthHandler) (msg : option string)
    : string * gmap string string :=
  (match msg with
   | None => ""
   | Some m => stringify (JObj [("message", JStr m)])
   end,
   _deleteSessionHeader this).

(** Modelled from the spec: [logout] (DbAuthHandler.js is missing). *)
Definition logout (this : DbAuthHandler) : string * gmap string string :=
  _logoutResponse this None.

(** Modelled from the spec: [getToken] (DbAuthHandler.js is missing): a
    signed token that embeds the user's id; "not logged in" gives the
    logout response, any other error its message in the body. *)
Definition getToken `{Libraries} (this : DbAuthHandler)
    : result error (string * gmap string string) :=
  try_catch
    (user ← _getCurrentUser this;
     let claims :=
       match lookup_member (id (authFields (options this))) user with
       | Some v => [("id", v)]
       | None => []
       end in
     mret (jwt_sign (JObj claims) (SESSION_SECRET (host this)), ∅))
    (fun e =>
       match e with
       | NotLoggedInError => Ok (_logoutResponse this None)
       | _ => Ok (_logoutResponse this (Some (message e)))
       end).

(** A name is a non-empty string. *)
Definition name_of (s : option string) : option string :=
  match s with
  | Some n => if nonempty n then Some n else None
  | None => None
  end.

(** The trailing segment of [path] after the auth route and a slash. *)
Definition method_of_path (this : DbAuthHandler) : option string :=
  name_of (strip_prefix (authRoute (options this) ++ "/") (path (event this))).

Definition method_of_query (this : DbAuthHandler) : option string :=
  name_of (queryStringParameters (event this) !! "method").

Definition method_of_body (this : DbAuthHandler) : option string :=
  match body (event this) with
  | None => None
  | Some b =>
      match parse b with
      | Some v =>
          match get "method" v with
          | Some (JStr m) => name_of (Some m)
          | _ => None
          end
      | None => None
      end
  end.

(** Modelled from the spec: [_getAuthMethod] (DbAuthHandler.js is
    missing): the path, then the query string, then the JSON body. *)
Definition _getAuthMethod (this : DbAuthHandler) : option string :=
  match method_of_path this with
  | Some m => Some m
  | None =>
      match method_of_query this with
      | Some m => Some m
      | None => method_of_body this
      end
  end.

(** [_ok(body, headers)]: status 200. *)
Definition _ok (r : string * gmap string string) : Response :=
  {| statusCode := 200; response_body := fst r; response_headers := snd r |}.

Definition verb : Type :=
  DbAuthHandler -> result error (string * gmap string string).

(** [this[method]]: the verb a method name denotes, if any. *)
Definition verb_named `{Libraries} (login signup : verb) (method : string)
    : option verb :=
  if String.eqb method "login" then Some login
  else if String.eqb method "signup" then Some signup
  else if String.eqb method "logout" then Some (fun this => Ok (logout this))
  else if String.eqb method "getToken" then Some getToken
  else None.

(** Modelled from the spec: the dispatcher (DbAuthHandler.js is missing).
    It resolves the method, fails when there is none, and runs the verb
    of that name; [login] and [signup], which no statement below is
    about, are arguments. *)
Definition invoke `{Libraries} (login signup : verb) (this : DbAuthHandler)
    : result error Response :=
  match _getAuthMethod this with
  | None => Throw (Error "method not specified")
  | Some method =>
      match verb_named login signup method with
      | Some run => r ← run this; mret (_ok r)
      | None => Throw (Error "this[method] is not a function")
      end
  end.

(** What the handler relies on from crypto-js: decrypting with the key a
    text was encrypted with gives the text back, and a ciphertext is
    printed as non-empty Base64 text. *)
Class CipherLaws `{Libraries} : Prop :=
  { decrypt_encrypt : forall message key salt,
      AES_decrypt (AES_encrypt message key salt) key = Some message;
    encrypt_base64 : forall message key salt,
      nonempty (AES_encrypt message key salt) = true
      /\ all is_base64 (AES_encrypt message key salt) = true }.

End DbAuth.

(** ** A reference instance of the libraries

    A keyed envelope that stands in for the AES cipher: the ciphertext is a
    tag of the key followed by the message, both in hexadecimal. *)

Module Reference.
Import JsString Json DbAuth.

Definition hex_string (s : string) : string :=
  Sha256.hex (Sha256.bytes_of_string s).

Fixpoint unhex (s : string) : option string :=
  match s with
  | EmptyString => Some EmptyString
  | String a (String b r) =>
      match hex_value a, hex_value b, unhex r with
      | Some x, Some y, Some t => Some (String (ascii_of_N (x * 16 + y)) t)
      | _, _, _ => None
      end
  | String _ EmptyString => None
  end.

Definition tag (key : string) : string :=
  Sha256.hex (Sha256.sha256 (Sha256.bytes_of_string key)).

Definition encrypt (message key salt : string) : string :=
  tag key ++ hex_string message.

Definition decrypt (ciphertext key : string) : option string :=
  match strip_prefix (tag key) ciphertext with
  | Some r => unhex r
  | None => None
  end.

#[export] Instance libraries : Libraries :=
  {| AES_encrypt := encrypt;
     AES_decrypt := decrypt;
     jwt_sign := fun claims secret =>
                   "jwt." ++ hex_string (stringify claims) ++ "." ++ tag secret;
     dbAuthError_message := fun e =>
       match e with
       | UserNotFoundError => "User not found"
       | NotLoggedInError => "Not logged in"
       | SessionDecryptionError => "Session could not be decrypted"
       | CsrfTokenMismatchError => "CSRF token mismatch"
       | _ => "Error"
       end |}.

End Reference.

(** ** Fixtures: the values the examples below are run on *)

Module WebhookFixtures.
Import JsString SecureHandler.

(** A host whose webhook secret is set. *)
Definition utc_host : Env :=
  {| process_env_WEBHOOK_SECRET := Some "MY_VOICE_IS_MY_PASSPORT_VERIFY_ME";
     Date_now := 1626000000000 |}.

(** An event without a body, signed over the empty string. *)
Definition bodyless_event : APIGatewayProxyEvent :=
  {| body := None;
     headers := Some {[ "rw-webhook-signature" :=
       "t=1626000000000,v1=8ca907fff66df0302e2975c23100595481025565d2435837683fb218e2c0697e" ]} |}.

End WebhookFixtures.

Module DbAuthFixtures.
Import JsString Json DbAuth.

(** The host and options of the test suite, on a machine in US Pacific
    time, and a request that carries [cookie] as its cookie header. *)
Definition test_host : Host :=
  {| SESSION_SECRET := "nREjs1HPS7cFia6tQHK70EWGtfhOgbqJQKsHQz3S";
     SELF_HOST := "http://site.test";
     Date_now := 1626000000000;
     timezoneOffset := 480;
     random_salt := "f3447565" |}.

Definition test_options : Options :=
  {| authFields := {| id := "id"; username := "email";
                      hashedPassword := "hashedPassword"; salt := "salt" |};
     db := [];
     excludeUserFields := [];
     loginExpires := 60 * 60;
     authRoute := "/.redwood/functions/auth" |}.

Definition request (cookie : option string) : DbAuthHandler :=
  {| event := {| path := "";
                 queryStringParameters := ∅;
                 body := None;
                 headers := match cookie with
                            | Some c => {[ "cookie" := c ]}
                            | None => ∅
                            end |};
     options := test_options;
     host := test_host |}.

(** The cookie the tests build with [encryptToCookie]. *)
Definition encryptToCookie `{Libraries} (data : string) : string :=
  "session=" ++ AES_encrypt data (SESSION_SECRET test_host) (random_salt test_host).

End DbAuthFixtures.

(** ** secureHandler.ts, continued: the steps after the parse, and
    further events *)

Module SecureHandlerSteps.
Import JsString JsNumber SecureHandler.

(** What [verifySignature] does once the header is parsed into the
    stamp and the digest (lines 194 to 213). *)
Definition after_parse (env : Env) (body : string) (secret : option string)
    (options : option VerifyOptions) (stamp digest : string)
    : result error bool :=
  let options := default no_options options in
  if Z.abs (default (Date_now env) (timestamp options) - Number stamp)
     >? default DEFAULT_TOLERANCE (tolerance options)
  then forbidden
  else
    hmac ← getHmac (Some (default (WEBHOOK_SECRET env) secret));
    if String.eqb
         (digest_hex (update hmac (toString (Number stamp) ++ "." ++ body)))
         digest
    then Ok true else forbidden.

(** The characters [String(z)] is made of. *)
Definition is_numeric (c : ascii) : bool :=
  is_digit c || Ascii.eqb c "e" || Ascii.eqb c "+" || Ascii.eqb c "."
  || Ascii.eqb c "-".

End SecureHandlerSteps.

Module WebhookEvents.
Import JsString SecureHandler.

(** A signed event whose header is stored under the upper-case name. *)
Definition uppercase_header_event : APIGatewayProxyEvent :=
  {| body := Some "No more secrets, Marty.";
     headers := Some {[ "RW-WEBHOOK-SIGNATURE" :=
       "t=1626000000000,v1=3ff48769887c3d9a15831037032b45ab8b09f5b6971626572ece9e6a1dbd4df5" ]} |}.

(** A host on which WEBHOOK_SECRET is not set. *)
Definition unset_host : Env :=
  {| process_env_WEBHOOK_SECRET := None; Date_now := 1626000000000 |}.

(** The same event with the header under the lower-case name. *)
Definition signed_event : APIGatewayProxyEvent :=
  {| body := Some "No more secrets, Marty.";
     headers := Some {[ "rw-webhook-signature" :=
       "t=1626000000000,v1=3ff48769887c3d9a15831037032b45ab8b09f5b6971626572ece9e6a1dbd4df5" ]} |}.

End WebhookEvents.


(** ** The mock credential store of DbAuthHandler.test.js

    [TableMock] keeps the records of one table in an array; [DbMock] has
    one table per accessor.  A record is an object, field name to value; a
    missing field reads as [undefined]. *)

Module TableMock.
Import JsString Json.

Record TableMock : Type :=
  { accessor : string;
    records : list (gmap string json) }.

(** [new TableMock(accessor)] *)
Definition new (accessor : string) : TableMock :=
  {| accessor := accessor; records := [] |}.

(** [new DbMock(accessors)]: [this[accessor] = new TableMock(accessor)]
    for each accessor in turn. *)
Definition DbMock (accessors : list string) : gmap string TableMock :=
  foldl (fun this accessor => <[accessor := new accessor]> this) ∅ accessors.

Definition count (this : TableMock) : nat := length (records this).

(** [create({ data })]: a record without an id gets [draw], the value of
    [Math.round(Math.random() * 10000000)]; the record is pushed and
    returned. *)
Definition create (draw : Z) (data : gmap string json) (this : TableMock)
    : TableMock * gmap string json :=
  let data := match data !! "id" with
              | None => <["id" := JNum draw]> data
              | Some _ => data
              end in
  ({| accessor := accessor this; records := records this ++ [data] |}, data).

(** [a === b] on two values read from objects, [None] being
    [undefined].  Numbers, strings, booleans and null are compared by
    value; an array or object is identical only to itself, which two
    values that reach the store separately never are. *)
Definition strict_equal (a b : option json) : bool :=
  match a, b with
  | None, None => true
  | Some x, Some y => DbAuth.strict_eq x y
  | _, _ => false
  end.

(** [where[key]] for a filter given by its entries in key order. *)
Fixpoint where_value (where_ : list (string * option json)) (key : string)
    : option json :=
  match where_ with
  | [] => None
  | (k, v) :: r => if String.eqb k key then v else where_value r key
  end.

(** [Object.keys(where)[0]], as the property name it is used as: the
    first key, or the text of [undefined] when there is none. *)
Definition first_key (where_ : list (string * option json)) : string :=
  match where_ with
  | [] => "undefined"
  | (k, _) :: _ => k
  end.

(** [findUnique({ where })]: the first record whose field named by the
    filter's first key is identical to the filter's value. *)
Definition findUnique (where_ : list (string * option json)) (this : TableMock)
    : option (gmap string json) :=
  List.find (fun record =>
               let key := first_key where_ in
               strict_equal (record !! key) (where_value where_ key))
            (records this).

(** [deleteMany()]: the number of records, and the table without them. *)
Definition deleteMany (this : TableMock) : TableMock * nat :=
  ({| accessor := accessor this; records := [] |}, length (records this)).

(** The user [createDbUser] stores. *)
Definition createDbUser (draw : Z) (user : TableMock)
    : TableMock * gmap string json :=
  create draw
    (<["email" := JStr "rob@redwoodjs.com"]>
       (<["hashedPassword" :=
            JStr "0c2b24e20ee76a887eac1415cc2c175ff961e7a0f057cead74789c43399dd5ba"]>
          (<["salt" := JStr "2ef27f4073c603ba8b7807c6de6d6a89"]> ∅)))
    user.

(** A value [===] compares by value. *)
Definition primitive (v : json) : bool :=
  match v with
  | JArr _ | JObj _ => false
  | _ => true
  end.

(** The table after one [createDbUser], and the user it returned. *)
Definition user_table : TableMock := fst (createDbUser 7 (new "user")).
Definition stored_user : gmap string json := snd (createDbUser 7 (new "user")).

End TableMock.

(** * Facts about the building blocks *)

Module StringFacts.
Import JsString JsNumber.

Lemma app_empty_r (s : string) : s ++ "" = s.
Proof. induction s as [|c s IH]; simpl; [reflexivity | now rewrite IH]. Qed.

Lemma app_assoc (a b c : string) : (a ++ b) ++ c = a ++ b ++ c.
Proof. induction a as [|x a IH]; simpl; [reflexivity | now rewrite IH]. Qed.

Lemma eqb_refl (s : string) : String.eqb s s = true.
Proof. apply String.eqb_eq. reflexivity. Qed.

Lemma span_app p a b :
  all p a = true -> stops p b -> span p (a ++ b) = (a, b).
Proof.
  induction a as [|c a IH]; simpl; intros Ha Hb.
  - destruct b as [|d b]; simpl in *; [reflexivity | now rewrite Hb].
  - apply andb_true_iff in Ha as [Hc Ha]. rewrite Hc, (IH Ha Hb). reflexivity.
Qed.

Lemma span_spec p s a b :
  span p s = (a, b) -> s = a ++ b /\ all p a = true /\ stops p b.
Proof.
  revert a b. induction s as [|c s IH]; simpl; intros a b H.
  - inversion H; subst. repeat split.
  - destruct (p c) eqn:Hc.
    + destruct (span p s) as [a' b'] eqn:Hs. inversion H; subst.
      destruct (IH a' b eq_refl) as (-> & Ha & Hb). simpl.
      rewrite Hc, Ha. repeat split; assumption.
    + inversion H; subst. simpl. repeat split. exact Hc.
Qed.

Lemma strip_prefix_app p r : strip_prefix p (p ++ r) = Some r.
Proof.
  induction p as [|c p IH]; simpl; [reflexivity|].
  now rewrite Ascii.eqb_refl.
Qed.

Lemma strip_prefix_spec p s r : strip_prefix p s = Some r -> s = p ++ r.
Proof.
  revert s. induction p as [|c p IH]; simpl; intros s H.
  - now inversion H.
  - destruct s as [|d s]; [discriminate|].
    destruct (Ascii.eqb c d) eqn:E; [|discriminate].
    apply Ascii.eqb_eq in E. subst d. now rewrite (IH _ H).
Qed.

Lemma all_app p a b : all p (a ++ b) = all p a && all p b.
Proof.
  induction a as [|c a IH]; simpl; [reflexivity|].
  now rewrite IH, andb_assoc.
Qed.

Lemma contains_app c a b : contains c (a ++ b) = contains c a || contains c b.
Proof.
  induction a as [|d a IH]; simpl; [reflexivity|].
  now rewrite IH, orb_assoc.
Qed.

(** A text without the separator is one piece. *)
Lemma split_none sep s : contains sep s = false -> split sep s = [s].
Proof.
  induction s as [|c s IH]; simpl; intros H; [reflexivity|].
  apply orb_false_iff in H as [Hc Hs].
  rewrite Ascii.eqb_sym, Hc, (IH Hs). reflexivity.
Qed.

(** Two texts without the separator, joined by it, split back. *)
Lemma split_pair sep a b :
  contains sep a = false -> contains sep b = false ->
  split sep (a ++ String sep b) = [a; b].
Proof.
  intros Ha Hb. induction a as [|c a IH]; simpl.
  - now rewrite Ascii.eqb_refl, (split_none _ _ Hb).
  - simpl in Ha. apply orb_false_iff in Ha as [Hc Ha].
    rewrite Ascii.eqb_sym, Hc, (IH Ha). reflexivity.
Qed.

Lemma split_positive sep s : (1 <= length (split sep s))%nat.
Proof.
  induction s as [|c s IH]; [simpl; lia|].
  cbn [split]. destruct (Ascii.eqb c sep); [simpl; lia|].
  destruct (split sep s); simpl; lia.
Qed.

Lemma split_cons sep c s :
  length (split sep (String c s))
  = if Ascii.eqb c sep then S (length (split sep s)) else length (split sep s).
Proof.
  cbn [split]. destruct (Ascii.eqb c sep); [reflexivity|].
  pose proof (split_positive sep s) as H.
  destruct (split sep s); [simpl in H; lia | reflexivity].
Qed.

Lemma split_app_le sep a b :
  (length (split sep b) <= length (split sep (a ++ b)))%nat.
Proof.
  induction a as [|c a IH]; [simpl; lia|].
  cbn [append]. rewrite split_cons. destruct (Ascii.eqb c sep); lia.
Qed.

(** A separator inside the first part gives more than two pieces. *)
Lemma split_many sep a b :
  contains sep a = true ->
  (3 <= length (split sep (a ++ String sep b)))%nat.
Proof.
  induction a as [|c a IH]; [discriminate|].
  cbn [contains append]. rewrite split_cons, (Ascii.eqb_sym c sep).
  destruct (Ascii.eqb sep c); cbn [orb]; intros H.
  - pose proof (split_app_le sep a (String sep b)) as Hle.
    rewrite split_cons, Ascii.eqb_refl in Hle.
    pose proof (split_positive sep b). lia.
  - now apply IH.
Qed.

Lemma decimal_uint_digits d :
  all is_digit (NilEmpty.string_of_uint d) = true.
Proof. induction d; simpl; auto. Qed.

Lemma decimal_digits n :
  all is_digit (decimal n) = true /\ nonempty (decimal n) = true.
Proof.
  unfold decimal, NilZero.string_of_uint.
  destruct (N.to_uint n) eqn:E; simpl; split; try reflexivity;
    apply (decimal_uint_digits).
Qed.

Lemma Number_decimal n : Number (decimal n) = Z.of_N n.
Proof.
  unfold Number, decimal.
  rewrite NilZero.usu.
  - now rewrite DecimalN.Unsigned.of_to.
  - destruct n; simpl; [discriminate | apply DecimalPos.Unsigned.to_uint_nonnil].
Qed.

(** Below 10^21 a natural number prints as its decimal digits. *)
Lemma toString_plain z :
  0 <= z < 10 ^ 21 -> toString z = decimal (Z.to_N z).
Proof.
  intros [H0 H1]. unfold toString, natToString.
  destruct (Z.ltb_spec z 0); [lia|].
  destruct (N.ltb_spec (Z.to_N z) (10 ^ 21)); [reflexivity|]. lia.
Qed.

Lemma Number_toString z : 0 <= z < 10 ^ 21 -> Number (toString z) = z.
Proof.
  intros H. rewrite (toString_plain z H), Number_decimal. lia.
Qed.

End StringFacts.

Module SecureHandlerFacts.
Import JsString JsNumber SecureHandler StringFacts.

Lemma hex_digit_is_hex n : 0 <= n < 16 -> is_hex (Sha256.hex_digit n) = true.
Proof.
  intros H. rewrite <- (Z2Nat.id n) by lia.
  assert (Z.to_nat n < 16)%nat as Hk by lia.
  destruct (Z.to_nat n) as [|k]; [reflexivity|].
  do 15 (destruct k as [|k]; [reflexivity|]). lia.
Qed.

Lemma hex_is_hex bytes : all is_hex (Sha256.hex bytes) = true.
Proof.
  induction bytes as [|b r IH]; simpl; [reflexivity|].
  rewrite !hex_digit_is_hex, IH; [reflexivity | |];
    apply Z.mod_pos_bound; lia.
Qed.

Lemma sha256_nonempty msg : exists b r, Sha256.sha256 msg = b :: r.
Proof.
  unfold Sha256.sha256.
  set (st := Sha256.blocks _ _ _).
  unfold Sha256.digest_words. cbn [flat_map Sha256.be_bytes app].
  eauto.
Qed.

(** A digest is lower-case hexadecimal text, and not empty. *)
Lemma digest_hex_shape h :
  all is_hex (digest_hex h) = true /\ nonempty (digest_hex h) = true.
Proof.
  split; [apply hex_is_hex|].
  unfold digest_hex, Sha256.hmac.
  destruct (sha256_nonempty
    (Sha256.xor_pad 92
       (if (64 <? length (Sha256.bytes_of_string (hmac_key h)))%nat
        then Sha256.sha256 (Sha256.bytes_of_string (hmac_key h))
        else Sha256.bytes_of_string (hmac_key h)) ++
     Sha256.sha256
       (Sha256.xor_pad 54
          (if (64 <? length (Sha256.bytes_of_string (hmac_key h)))%nat
           then Sha256.sha256 (Sha256.bytes_of_string (hmac_key h))
           else Sha256.bytes_of_string (hmac_key h)) ++
        Sha256.bytes_of_string (hmac_data h)))) as (b & r & ->).
  reflexivity.
Qed.

Lemma span_all p s : all p s = true -> span p s = (s, "").
Proof.
  intros H. rewrite <- (app_empty_r s) at 1. now apply span_app.
Qed.

(** The pattern, tried where an envelope starts, finds the time stamp
    and at least the digest. *)
Lemma match_here_envelope stamp digest post :
  nonempty stamp = true -> all is_digit stamp = true ->
  nonempty digest = true -> all is_hex digest = true ->
  exists more rest,
    post = more ++ rest /\ all is_hex more = true /\ stops is_hex rest /\
    match_here ("t=" ++ stamp ++ ",v1=" ++ digest ++ post)
      = Some (stamp, digest ++ more).
Proof.
  intros Hs1 Hs2 Hd1 Hd2.
  destruct (span is_hex post) as [more rest] eqn:Hp.
  destruct (span_spec _ _ _ _ Hp) as (-> & Hm & Hr).
  exists more, rest. repeat split; try assumption.
  unfold match_here. cbn [strip_prefix append Ascii.eqb Bool.eqb].
  rewrite (span_app is_digit stamp); [|assumption | reflexivity].
  rewrite Hs1. cbn [strip_prefix append Ascii.eqb Bool.eqb].
  rewrite <- app_assoc.
  rewrite (span_app is_hex (digest ++ more) rest);
    [| rewrite all_app, Hd2, Hm; reflexivity | assumption].
  destruct digest; [discriminate | reflexivity].
Qed.

Lemma match_here_exact stamp digest :
  nonempty stamp = true -> all is_digit stamp = true ->
  nonempty digest = true -> all is_hex digest = true ->
  match_here ("t=" ++ stamp ++ ",v1=" ++ digest) = Some (stamp, digest).
Proof.
  intros Hs1 Hs2 Hd1 Hd2.
  destruct (match_here_envelope stamp digest "" Hs1 Hs2 Hd1 Hd2)
    as (more & rest & Hpost & _ & _ & H).
  rewrite app_empty_r in H. rewrite H.
  destruct more; [now rewrite app_empty_r | discriminate].
Qed.

Lemma match_here_sound s stamp digest :
  match_here s = Some (stamp, digest) ->
  exists post,
    s = "t=" ++ stamp ++ ",v1=" ++ digest ++ post /\
    nonempty stamp = true /\ all is_digit stamp = true /\
    nonempty digest = true /\ all is_hex digest = true.
Proof.
  unfold match_here. intros H.
  destruct (strip_prefix "t=" s) as [r|] eqn:H1; [|discriminate].
  apply strip_prefix_spec in H1. subst s.
  destruct (span is_digit r) as [st r1] eqn:H2.
  destruct (span_spec _ _ _ _ H2) as (-> & Hst & _).
  destruct (nonempty st) eqn:Hne; [|discriminate].
  destruct (strip_prefix ",v1=" r1) as [r2|] eqn:H3; [|discriminate].
  apply strip_prefix_spec in H3. subst r1.
  destruct (span is_hex r2) as [dg r3] eqn:H4.
  destruct (span_spec _ _ _ _ H4) as (-> & Hdg & _).
  destruct (nonempty dg) eqn:Hne2; [|discriminate].
  inversion H; subst. exists r3. repeat split; assumption.
Qed.

Lemma exec_exact stamp digest :
  nonempty stamp = true -> all is_digit stamp = true ->
  nonempty digest = true -> all is_hex digest = true ->
  exec ("t=" ++ stamp ++ ",v1=" ++ digest) = Some (stamp, digest).
Proof.
  intros. pose proof (match_here_exact stamp digest) as E.
  cbn [append] in *. cbn [exec]. now rewrite E.
Qed.

Lemma exec_some_here s m : match_here s = Some m -> exec s = Some m.
Proof. intros H. destruct s; cbn [exec]; now rewrite H. Qed.

Lemma exec_skip pre s : exec s <> None -> exec (pre ++ s) <> None.
Proof.
  intros H. induction pre as [|c pre IH]; [exact H|].
  cbn [append exec]. destruct (match_here _); [discriminate | exact IH].
Qed.

Lemma exec_sound s stamp digest :
  exec s = Some (stamp, digest) ->
  exists pre post,
    s = pre ++ "t=" ++ stamp ++ ",v1=" ++ digest ++ post /\
    nonempty stamp = true /\ all is_digit stamp = true /\
    nonempty digest = true /\ all is_hex digest = true.
Proof.
  induction s as [|c s IH]; cbn [exec]; intros H.
  - destruct (match_here "") eqn:E; [|discriminate].
    inversion H; subst. apply match_here_sound in E as (post & E & ?).
    exists "", post. now split.
  - destruct (match_here (String c s)) as [m|] eqn:E.
    + inversion H; subst. apply match_here_sound in E as (post & E & ?).
      exists "", post. now split.
    + destruct (IH H) as (pre & post & -> & ?).
      exists (String c pre), post. now split.
Qed.

End SecureHandlerFacts.

Module SecureHandlerTheorems.
Import JsString JsNumber SecureHandler WebhookFixtures StringFacts SecureHandlerFacts.

#[local] Opaque digest_hex.

Lemma getHmac_nonempty secret :
  secret <> "" -> getHmac (Some secret) = Ok (createHmac secret).
Proof.
  intros H. unfold getHmac.
  destruct (String.eqb_spec secret ""); [contradiction | reflexivity].
Qed.

Lemma exec_none_iff s : exec s = None <-> ~ contains_envelope s.
Proof.
  split.
  - intros H (pre & stamp & digest & post & -> & Hs1 & Hs2 & Hd1 & Hd2).
    destruct (match_here_envelope stamp digest post Hs1 Hs2 Hd1 Hd2)
      as (more & rest & _ & _ & _ & E).
    apply (exec_skip pre _) in H; [exact H|].
    now rewrite (exec_some_here _ _ E).
  - intros H. destruct (exec s) as [[stamp digest]|] eqn:E; [|reflexivity].
    exfalso. apply H. apply exec_sound in E as (pre & post & E).
    now exists pre, stamp, digest, post.
Qed.

(** verifySignature on a header that is exactly an envelope carrying the
    expected digest: only the replay window decides. *)
Lemma verifySignature_exact env body secret stamp options :
  let key := default (WEBHOOK_SECRET env) secret in
  key <> "" -> nonempty stamp = true -> all is_digit stamp = true ->
  verifySignature env body secret
    (Some ("t=" ++ stamp ++ ",v1=" ++ expected_digest key (Number stamp) body))
    options
  = if Z.abs (default (Date_now env) (timestamp (default no_options options))
              - Number stamp)
       >? default DEFAULT_TOLERANCE (tolerance (default no_options options))
    then forbidden else Ok true.
Proof.
  intros key Hsec Hs1 Hs2. unfold verifySignature. fold key.
  cbn [ToString].
  destruct (digest_hex_shape
              (update (createHmac key) (toString (Number stamp) ++ "." ++ body)))
    as [Hd2 Hd1].
  rewrite (exec_exact stamp (expected_digest key (Number stamp) body)
             Hs1 Hs2 Hd1 Hd2).
  destruct (_ >? _); [reflexivity|].
  rewrite (getHmac_nonempty _ Hsec). cbn [mbind result_bind].
  unfold expected_digest. now rewrite eqb_refl.
Qed.

(** What sign returns: a header for a non-empty secret, the error for
    an empty one. *)
Lemma sign_spec env body secret t :
  let key := default (WEBHOOK_SECRET env) secret in
  sign env body secret (Some t)
  = if String.eqb key "" then forbidden
    else Ok ("t=" ++ toString t ++ ",v1=" ++ expected_digest key t body).
Proof.
  intros key. unfold sign, getHmac. fold key. cbn [default from_option id].
  destruct (String.eqb key ""); reflexivity.
Qed.

(** A header signed at [t] verifies when checked within the tolerance
    of [t]. *)
Lemma verifySignature_signed env body secret t signature options :
  sign env body secret (Some t) = Ok signature -> 0 <= t < 10 ^ 21 ->
  Z.abs (default (Date_now env) (options ≫= timestamp) - t)
    <= default DEFAULT_TOLERANCE (options ≫= tolerance) ->
  verifySignature env body secret (Some signature) options = Ok true.
Proof.
  intros Hsign Ht Hwin. rewrite sign_spec in Hsign.
  destruct (String.eqb_spec (default (WEBHOOK_SECRET env) secret) "")
    as [|Hsec]; [discriminate|].
  injection Hsign as <-.
  rewrite (toString_plain t Ht).
  destruct (decimal_digits (Z.to_N t)) as [Hd Hn].
  assert (Number (decimal (Z.to_N t)) = t) as Hnum
    by (rewrite Number_decimal; lia).
  pose proof (verifySignature_exact env body secret (decimal (Z.to_N t))
                options Hsec Hn Hd) as E.
  rewrite Hnum in E. cbn [append] in E |- *. rewrite E. clear E.
  assert (default (Date_now env) (timestamp (default no_options options))
          = default (Date_now env) (options ≫= timestamp)) as ->
    by (destruct options; reflexivity).
  assert (default DEFAULT_TOLERANCE (tolerance (default no_options options))
          = default DEFAULT_TOLERANCE (options ≫= tolerance)) as ->
    by (destruct options; reflexivity).
  destruct (Z.gtb_spec
              (Z.abs (default (Date_now env) (options ≫= timestamp) - t))
              (default DEFAULT_TOLERANCE (options ≫= tolerance)));
    [lia | reflexivity].
Qed.

(** C2, as amended. Signing a body at a natural-number time stamp below
    10^21 with a non-empty secret, and verifying the result with the same
    body, secret and time stamp, returns true. *)
Theorem sign_verify_roundtrip env body secret t :
  secret <> "" -> 0 <= t < 10 ^ 21 ->
  exists signature,
    sign env body (Some secret) (Some t) = Ok signature /\
    verifySignature env body (Some secret) (Some signature)
      (Some {| tolerance := None; timestamp := Some t |}) = Ok true.
Proof.
  intros Hsec Ht.
  pose proof (sign_spec env body (Some secret) t) as Hsign.
  cbn [default from_option id] in Hsign.
  destruct (String.eqb_spec secret ""); [contradiction|].
  eexists. split; [exact Hsign|].
  apply (verifySignature_signed env body (Some secret) t _ _ Hsign Ht).
  cbn. unfold DEFAULT_TOLERANCE, FIVE_MINUTES. lia.
Qed.

Lemma sign_verify_roundtrip_witness :
  exists signature,
    sign utc_host "No more secrets, Marty." (Some "MY_SECRET")
      (Some 1626000000000) = Ok signature /\
    verifySignature utc_host "No more secrets, Marty." (Some "MY_SECRET")
      (Some signature)
      (Some {| tolerance := None; timestamp := Some 1626000000000 |}) = Ok true.
Proof.
  apply (sign_verify_roundtrip utc_host "No more secrets, Marty." "MY_SECRET"
           1626000000000); [discriminate | lia].
Defined.

(** C2, as stated, fails at the time stamp 10^21: the header reads
    [t=1e+21,...], which the pattern does not match. *)
Lemma sign_verify_roundtrip_counterexample :
  sign utc_host "body" (Some "secret") (Some (10 ^ 21))
    = Ok "t=1e+21,v1=5eeea7542bf2c8fd5853685744ea970348f5b8d3fae2a6a804c81712c33a4b43"
  /\ verifySignature utc_host "body" (Some "secret")
       (Some "t=1e+21,v1=5eeea7542bf2c8fd5853685744ea970348f5b8d3fae2a6a804c81712c33a4b43")
       (Some {| tolerance := None; timestamp := Some (10 ^ 21) |})
     = forbidden.
Proof. split; vm_compute; reflexivity. Qed.

(** C4, as stated, fails: a header with text before and after the
    envelope is not exactly of the form, and yet it is accepted. *)
Lemma verifySignature_unanchored_counterexample :
  exact_envelope
    "sig: t=5,v1=233b85f6e9955e1fcd9d9e0106c124bdcb8b44ac4716382a2169cfbac46cbcee (v1)"
    = false
  /\ verifySignature utc_host "body" (Some "MY_SECRET")
       (Some "sig: t=5,v1=233b85f6e9955e1fcd9d9e0106c124bdcb8b44ac4716382a2169cfbac46cbcee (v1)")
       (Some {| tolerance := None; timestamp := Some 5 |})
     = Ok true.
Proof. split; vm_compute; reflexivity. Qed.

(** [exact_envelope] decides "the whole text is [t=<digits>,v1=<hex>]". *)
Lemma exact_envelope_spec s :
  exact_envelope s = true <->
  exists stamp digest,
    s = "t=" ++ stamp ++ ",v1=" ++ digest /\
    nonempty stamp = true /\ all is_digit stamp = true /\
    nonempty digest = true /\ all is_hex digest = true.
Proof.
  unfold exact_envelope. split.
  - destruct (match_here s) as [[stamp digest]|] eqn:E; [|discriminate].
    intros H. apply String.eqb_eq in H.
    apply match_here_sound in E as (post & _ & ?).
    now exists stamp, digest.
  - intros (stamp & digest & -> & Hs1 & Hs2 & Hd1 & Hd2).
    rewrite (match_here_exact _ _ Hs1 Hs2 Hd1 Hd2). apply eqb_refl.
Qed.

(** C4, as amended. verifySignature fails at once, whatever the body,
    the secret, the options and the clock, exactly for the headers that
    contain no [t=<digits>,v1=<hex>]; a header that is exactly of that
    form, or that contains it among other characters, passes the parse
    step, and the time stamp and digest of its leftmost occurrence are
    then checked. *)
Theorem verifySignature_parse (signature : option string) :
  (exec (ToString signature) = None <->
     ~ contains_envelope (ToString signature))
  /\ (exec (ToString signature) = None ->
      forall env body secret options,
        verifySignature env body secret signature options = forbidden)
  /\ (exact_envelope (ToString signature) = true ->
      contains_envelope (ToString signature))
  /\ (forall stamp digest,
        exec (ToString signature) = Some (stamp, digest) ->
        forall env body secret options,
          verifySignature env body secret signature options
          = if Z.abs (default (Date_now env) (timestamp (default no_options options))
                      - Number stamp)
               >? default DEFAULT_TOLERANCE (tolerance (default no_options options))
            then forbidden
            else
              hmac ← getHmac (Some (default (WEBHOOK_SECRET env) secret));
              if String.eqb
                   (digest_hex (update hmac (toString (Number stamp) ++ "." ++ body)))
                   digest
              then Ok true else forbidden).
Proof.
  split; [apply exec_none_iff|]. split; [|split].
  - intros H env body secret options. unfold verifySignature. now rewrite H.
  - intros H. apply exact_envelope_spec in H as (stamp & digest & E & ?).
    exists "", stamp, digest, "". cbn [append]. rewrite app_empty_r. now split.
  - intros stamp digest H env body secret options.
    unfold verifySignature. rewrite H. reflexivity.
Qed.



(** verifySignature returns true or throws the one ForbiddenError. *)
Lemma verifySignature_outcomes env body secret signature options :
  verifySignature env body secret signature options = Ok true
  \/ verifySignature env body secret signature options = forbidden.
Proof.
  unfold verifySignature.
  destruct (exec _) as [[m1 m2]|]; [|now right].
  destruct (_ >? _); [now right|].
  destruct (getHmac _) as [h|e] eqn:E; cbn [mbind result_bind].
  - destruct (String.eqb _ _); [now left | now right].
  - right. unfold getHmac in E.
    destruct (String.eqb _ _); now inversion E.
Qed.

(** C6, as stated, fails for an undefined secret: the parameter then
    defaults to WEBHOOK_SECRET, and a header signed with that secret
    verifies. *)
Lemma verifySignature_undefined_secret_counterexample :
  verifySignature utc_host "No more secrets, Marty." None
    (Some "t=1626000000000,v1=3ff48769887c3d9a15831037032b45ab8b09f5b6971626572ece9e6a1dbd4df5")
    None
  = Ok true.
Proof. vm_compute. reflexivity. Qed.

(** C6, as amended. verifySignature returns true or throws
    ForbiddenError with the one message ERROR_MESSAGE, whichever check
    failed; and when the secret in effect is empty (an empty [secret], or
    an undefined one while WEBHOOK_SECRET is unset or empty) it never
    returns true, whatever the body and the signature. *)
Theorem verifySignature_undifferentiated env body secret signature options :
  (verifySignature env body secret signature options = Ok true
   \/ verifySignature env body secret signature options
      = Throw (ForbiddenError ERROR_MESSAGE))
  /\ (default (WEBHOOK_SECRET env) secret = "" ->
      verifySignature env body secret signature options
      = Throw (ForbiddenError ERROR_MESSAGE))
  /\ getHmac None = Throw (ForbiddenError ERROR_MESSAGE)
  /\ getHmac (Some "") = Throw (ForbiddenError ERROR_MESSAGE).
Proof.
  split; [apply verifySignature_outcomes|].
  split; [|split; reflexivity].
  intros Hempty. unfold verifySignature. rewrite Hempty.
  destruct (exec _) as [[m1 m2]|]; [|reflexivity].
  destruct (_ >? _); reflexivity.
Qed.

(** C10. For an event without a body, verify is verifySignature on the
    body [''], the secret WEBHOOK_SECRET and the header stored under the
    key ['rw-webhook-signature']; so a header signed over the empty
    string, checked within the tolerance, verifies the event. *)
Theorem verify_bodyless env event options :
  body event = None ->
  let header := hs ← headers event; hs !! "rw-webhook-signature" in
  verify env event options
    = verifySignature env "" (Some (WEBHOOK_SECRET env)) header options
  /\ forall t signature,
      sign env "" None (Some t) = Ok signature ->
      header = Some signature ->
      0 <= t < 10 ^ 21 ->
      Z.abs (default (Date_now env) (options ≫= timestamp) - t)
        <= default DEFAULT_TOLERANCE (options ≫= tolerance) ->
      verify env event options = Ok true.
Proof.
  intros Hbody header.
  assert (verify env event options
          = verifySignature env "" (Some (WEBHOOK_SECRET env)) header options)
    as Hverify.
  { unfold verify, signatureFromEvent. rewrite Hbody.
    subst header. destruct (headers event); reflexivity. }
  split; [exact Hverify|].
  intros t signature Hsign Hheader Ht Hwin.
  rewrite Hverify, Hheader.
  apply (verifySignature_signed env "" _ t); try assumption.
Qed.

Lemma verify_bodyless_witness :
  let header := hs ← headers bodyless_event; hs !! "rw-webhook-signature" in
  verify utc_host bodyless_event None
    = verifySignature utc_host "" (Some (WEBHOOK_SECRET utc_host)) header None
  /\ forall t signature,
      sign utc_host "" None (Some t) = Ok signature ->
      header = Some signature ->
      0 <= t < 10 ^ 21 ->
      Z.abs (default (Date_now utc_host) (None ≫= timestamp) - t)
        <= default DEFAULT_TOLERANCE (None ≫= tolerance) ->
      verify utc_host bodyless_event None = Ok true.
Proof. apply (verify_bodyless utc_host bodyless_event None). reflexivity. Defined.

(** The bodyless event above is verified. *)
Example verify_bodyless_event : verify utc_host bodyless_event None = Ok true.
Proof. vm_compute. reflexivity. Qed.

(** The header key is the lower-cased constant. *)
Example signature_header_key :
  toLowerCase WEBHOOK_SIGNTAURE_HEADER = "rw-webhook-signature".
Proof. reflexivity. Qed.

End SecureHandlerTheorems.

Module JsonFacts.
Import JsString JsNumber Json StringFacts.

Ltac by_cases c :=
  destruct c as [[|] [|] [|] [|] [|] [|] [|] [|]].

Lemma parse_string_escape_char c x :
  parse_string (escape_char c ++ x)
  = match parse_string x with
    | Some (t, rest) => Some (String c t, rest)
    | None => None
    end.
Proof. by_cases c; reflexivity. Qed.

(** A quoted string reads back as itself. *)
Lemma parse_string_escape s rest :
  parse_string (escape s ++ String dquote rest) = Some (s, rest).
Proof.
  induction s as [|c s IH]; [reflexivity|].
  cbn [escape]. rewrite app_assoc, parse_string_escape_char, IH. reflexivity.
Qed.

Lemma length_app (a b : string) :
  String.length (a ++ b) = (String.length a + String.length b)%nat.
Proof. induction a as [|c a IH]; simpl; [reflexivity | now rewrite IH]. Qed.

Lemma value_start_not_ws c r :
  value_start c = true -> skip_ws (String c r) = String c r.
Proof. intros H. by_cases c; try discriminate H; reflexivity. Qed.

Lemma value_start_not_closing c r :
  value_start c = true ->
  strip_prefix "]" (String c r) = None /\ strip_prefix "}" (String c r) = None.
Proof. intros H. by_cases c; try discriminate H; split; reflexivity. Qed.

Lemma parse_value_number f c r :
  is_digit c = true \/ c = "-"%char ->
  parse_value (S f) (String c r) = parse_number (String c r).
Proof.
  intros [H | ->]; [|reflexivity].
  by_cases c; try discriminate H; reflexivity.
Qed.

Lemma digit_not_minus c r :
  is_digit c = true -> strip_prefix "-" (String c r) = None.
Proof. intros H. by_cases c; try discriminate H; reflexivity. Qed.

Lemma closes_stops_digit rest : closes rest = true -> stops is_digit rest.
Proof.
  destruct rest as [|c r]; [constructor|]. simpl. intros H.
  by_cases c; try discriminate H; reflexivity.
Qed.

Lemma closes_no_fraction rest :
  closes rest = true -> fraction_or_exponent rest = false.
Proof.
  destruct rest as [|c r]; [reflexivity|]. simpl. intros H.
  by_cases c; try discriminate H; reflexivity.
Qed.

Lemma to_uint_normal n : Decimal.unorm (N.to_uint n) = N.to_uint n.
Proof.
  rewrite <- (DecimalN.Unsigned.of_to n) at 2.
  now rewrite DecimalN.Unsigned.to_of.
Qed.

(** Decimal digits never start with a superfluous zero. *)
Lemma decimal_no_leading_zero n : leading_zero (decimal n) = false.
Proof.
  unfold decimal. pose proof (to_uint_normal n) as H.
  destruct (N.to_uint n) as [|u|u|u|u|u|u|u|u|u|u] eqn:E;
    try reflexivity;
    try (cbn; destruct (NilEmpty.string_of_uint u); reflexivity).
  unfold Decimal.unorm in H.
  destruct (Decimal.nzhead (Decimal.D0 u)) eqn:Hz;
    try (exfalso; apply (DecimalFacts.nzhead_nonzero _ _ Hz));
    try discriminate H.
  injection H as <-. reflexivity.
Qed.

Lemma decimal_head n :
  exists c r, decimal n = String c r /\ is_digit c = true.
Proof.
  destruct (decimal_digits n) as [Hd Hn].
  destruct (decimal n) as [|c r]; [discriminate|].
  exists c, r. split; [reflexivity|].
  simpl in Hd. now apply andb_true_iff in Hd as [? _].
Qed.

(** A safe integer prints as its decimal digits, with a sign. *)
Lemma toString_safe z :
  safe_integer z = true ->
  toString z = if z <? 0 then String "-" (decimal (Z.to_N (- z)))
               else decimal (Z.to_N z).
Proof.
  unfold safe_integer, toString, natToString. intros H.
  apply Z.leb_le in H.
  assert (2 ^ 53 - 1 < 10 ^ 21) by reflexivity.
  destruct (Z.ltb_spec z 0).
  - destruct (N.ltb_spec (Z.to_N (- z)) (10 ^ 21)); [reflexivity | lia].
  - destruct (N.ltb_spec (Z.to_N z) (10 ^ 21)); [reflexivity | lia].
Qed.

Lemma decimal_not_minus n rest :
  strip_prefix "-" (decimal n ++ rest) = None.
Proof.
  destruct (decimal_head n) as (c & r & -> & Hc).
  cbn [append]. now apply digit_not_minus.
Qed.

Lemma parse_value_decimal f n rest :
  parse_value (S f) (decimal n ++ rest) = parse_number (decimal n ++ rest).
Proof.
  destruct (decimal_head n) as (c & r & -> & Hc).
  cbn [append]. apply parse_value_number. now left.
Qed.

Lemma parse_number_decimal n rest :
  closes rest = true ->
  parse_number (decimal n ++ rest) = Some (JNum (Z.of_N n), rest).
Proof.
  intros Hrest. unfold parse_number.
  destruct (decimal_digits n) as [Hd Hn].
  rewrite decimal_not_minus.
  rewrite (span_app is_digit _ _ Hd (closes_stops_digit _ Hrest)).
  rewrite Hn, decimal_no_leading_zero, (closes_no_fraction _ Hrest).
  cbn [negb orb]. now rewrite Number_decimal.
Qed.

Lemma parse_number_negative n rest :
  closes rest = true ->
  parse_number (String "-" (decimal n ++ rest)) = Some (JNum (- Z.of_N n), rest).
Proof.
  intros Hrest. unfold parse_number.
  destruct (decimal_digits n) as [Hd Hn].
  cbn [strip_prefix Ascii.eqb Bool.eqb].
  rewrite (span_app is_digit _ _ Hd (closes_stops_digit _ Hrest)).
  rewrite Hn, decimal_no_leading_zero, (closes_no_fraction _ Hrest).
  cbn [negb orb]. now rewrite Number_decimal.
Qed.

(** A safe integer reads back as itself. *)
Lemma parse_value_number_text f z rest :
  safe_integer z = true -> closes rest = true ->
  parse_value (S f) (toString z ++ rest) = Some (JNum z, rest).
Proof.
  intros Hz Hrest. rewrite (toString_safe z Hz).
  destruct (Z.ltb_spec z 0).
  - cbn [append]. rewrite parse_value_number by now right.
    rewrite parse_number_negative by assumption.
    do 2 f_equal. f_equal. lia.
  - rewrite parse_value_decimal, parse_number_decimal by assumption.
    do 2 f_equal. f_equal. lia.
Qed.

(** The text of a value starts with a character no white space and no
    closing bracket is. *)
Lemma stringify_head v :
  serializable v = true ->
  exists c r, stringify v = String c r /\ value_start c = true.
Proof.
  destruct v as [|[|]|z|s|l|l]; intros Hv; cbn [stringify quote append];
    try (eexists _, _; split; reflexivity).
  rewrite (toString_safe z Hv). destruct (z <? 0).
  - eexists _, _; split; reflexivity.
  - destruct (decimal_head (Z.to_N z)) as (c & r & -> & Hc).
    exists c, r. split; [reflexivity|]. unfold value_start. now rewrite Hc.
Qed.

Lemma skip_ws_keeps c r : is_ws c = false -> skip_ws (String c r) = String c r.
Proof. intros H. cbn [skip_ws]. now rewrite H. Qed.

Lemma join_cons_cons sep (a b : string) l :
  join sep (a :: b :: l) = a ++ sep ++ join sep (b :: l).
Proof. reflexivity. Qed.

Lemma parse_elements_stringify l :
  Forall reads_back l -> forallb serializable l = true -> l <> [] ->
  forall fuel rest,
    (list_sum (map (fun e => S (weight e)) l) <= fuel)%nat ->
    parse_elements fuel (join "," (map stringify l) ++ String "]" rest)
    = Some (l, rest).
Proof.
  induction 1 as [|e es He Hes IH]; [congruence|].
  intros Hser _ fuel rest Hfuel.
  cbn [forallb] in Hser. apply andb_true_iff in Hser as [Hse Hses].
  simpl in Hfuel.
  destruct fuel as [|f]; [lia|]. cbn [parse_elements].
  destruct es as [|e' es'].
  - cbn [map join].
    rewrite (He Hse f (String "]" rest)) by (reflexivity || lia).
    reflexivity.
  - cbn [map]. rewrite join_cons_cons, !app_assoc. cbn [append].
    rewrite (He Hse f) by (reflexivity || lia).
    rewrite (skip_ws_keeps ","%char) by reflexivity. cbv beta iota.
    change (map stringify (e' :: es')) with (stringify e' :: map stringify es') in IH.
    rewrite (IH Hses ltac:(discriminate) f rest) by lia.
    reflexivity.
Qed.

Lemma parse_members_stringify (l : list (string * json)) :
  Forall (fun kv => reads_back (snd kv)) l ->
  forallb (fun kv => serializable (snd kv)) l = true -> l <> [] ->
  forall fuel rest,
    (list_sum (map (fun kv => S (weight (snd kv))) l) <= fuel)%nat ->
    parse_members fuel (join "," (map member_text l) ++ String "}" rest)
    = Some (l, rest).
Proof.
  induction 1 as [|[k e] es He Hes IH]; [congruence|].
  intros Hser _ fuel rest Hfuel.
  cbn [forallb snd] in Hser. apply andb_true_iff in Hser as [Hse Hses].
  simpl in Hfuel. cbn [snd] in He.
  destruct fuel as [|f]; [lia|]. cbn [parse_members].
  destruct es as [|kv' es'].
  - cbn [map join]. unfold member_text, quote. cbn [fst snd].
    rewrite !app_assoc. cbn [append].
    rewrite (skip_ws_keeps dquote) by reflexivity. cbv beta iota.
    rewrite !app_assoc. cbn [append].
    rewrite parse_string_escape.
    rewrite (skip_ws_keeps ":"%char) by reflexivity. cbv beta iota.
    rewrite (He Hse f (String "}" rest)) by (reflexivity || lia).
    reflexivity.
  - cbn [map]. rewrite join_cons_cons.
    unfold member_text at 1. unfold quote. cbn [fst snd].
    rewrite !app_assoc. cbn [append].
    rewrite (skip_ws_keeps dquote) by reflexivity. cbv beta iota.
    rewrite !app_assoc. cbn [append].
    rewrite parse_string_escape.
    rewrite (skip_ws_keeps ":"%char) by reflexivity. cbv beta iota.
    rewrite (He Hse f) by (reflexivity || lia).
    rewrite (skip_ws_keeps ","%char) by reflexivity. cbv beta iota.
    change (map member_text (kv' :: es'))
      with (member_text kv' :: map member_text es') in IH.
    rewrite (IH Hses ltac:(discriminate) f rest) by lia.
    reflexivity.
Qed.

Lemma join_head (f : json -> string) e l :
  (exists c r, f e = String c r /\ value_start c = true) ->
  exists c r, join "," (map f (e :: l)) = String c r /\ value_start c = true.
Proof.
  intros (c & r & E & Hc). destruct l as [|e' l'].
  - exists c, r. cbn [map join]. now split.
  - cbn [map]. rewrite join_cons_cons, E. cbn [append]. eauto.
Qed.

(** Every serializable value reads back from its text. *)
Lemma parse_value_stringify v : reads_back v.
Proof.
  induction v as [|b|z|s|l IH|l IH] using json_ind;
    intros Hser fuel rest Hfuel Hrest;
    (destruct fuel as [|f]; [cbn in Hfuel; lia|]).
  - reflexivity.
  - destruct b; reflexivity.
  - now apply parse_value_number_text.
  - cbn [stringify quote append parse_value].
    rewrite (skip_ws_keeps dquote) by reflexivity. cbv beta iota.
    rewrite app_assoc. cbn [append]. now rewrite parse_string_escape.
  - cbn [stringify]. rewrite !app_assoc. cbn [append parse_value].
    rewrite (skip_ws_keeps "["%char) by reflexivity. cbv beta iota.
    destruct l as [|e es]; [reflexivity|].
    cbn [serializable] in Hser.
    destruct (join_head stringify e es) as (c & r & E & Hc).
    { apply stringify_head. cbn [forallb] in Hser.
      now apply andb_true_iff in Hser as [? _]. }
    rewrite E at 1. cbn [append].
    rewrite (value_start_not_ws c _ Hc).
    rewrite (proj1 (value_start_not_closing c _ Hc)).
    rewrite (parse_elements_stringify (e :: es) IH Hser ltac:(discriminate));
      [reflexivity | cbn [weight] in Hfuel; lia].
  - cbn [stringify]. rewrite !app_assoc. cbn [append parse_value].
    rewrite (skip_ws_keeps "{"%char) by reflexivity. cbv beta iota.
    destruct l as [|[k e] es]; [reflexivity|].
    cbn [serializable] in Hser.
    fold (member_text).
    change (fun kv : string * json => quote (fst kv) ++ ":" ++ stringify (snd kv))
      with member_text.
    rewrite (parse_members_stringify ((k, e) :: es) IH Hser ltac:(discriminate));
      [| cbn [weight] in Hfuel; lia].
    cbn [map]. destruct es; reflexivity.
Qed.

Lemma safe_text_nonempty z :
  safe_integer z = true -> (1 <= String.length (toString z))%nat.
Proof.
  intros Hz. rewrite (toString_safe z Hz). destruct (z <? 0); [simpl; lia|].
  destruct (decimal_head (Z.to_N z)) as (c & r & -> & _). simpl. lia.
Qed.

Lemma weight_le_length v :
  serializable v = true -> (weight v <= String.length (stringify v))%nat.
Proof.
  induction v as [|b|z|s|l IH|l IH] using json_ind; intros Hser.
  - simpl. lia.
  - destruct b; simpl; lia.
  - now apply safe_text_nonempty.
  - simpl. lia.
  - cbn [stringify weight serializable] in *.
    rewrite !length_app. cbn [String.length].
    enough (list_sum (map (fun e => S (weight e)) l)
            <= S (String.length (join "," (map stringify l))))%nat by lia.
    induction IH as [|e es He Hes IHes]; [simpl; lia|].
    cbn [forallb] in Hser. apply andb_true_iff in Hser as [Hse Hses].
    specialize (He Hse). specialize (IHes Hses).
    destruct es as [|e' es']; [simpl in *; lia|].
    cbn [map]. rewrite join_cons_cons, !length_app.
    cbn [map] in IHes. simpl in *. lia.
  - cbn [stringify weight serializable] in *.
    rewrite !length_app. cbn [String.length].
    change (fun kv : string * json => quote (fst kv) ++ ":" ++ stringify (snd kv))
      with member_text.
    enough (list_sum (map (fun kv => S (weight (snd kv))) l)
            <= S (String.length (join "," (map member_text l))))%nat by lia.
    induction IH as [|[k e] es He Hes IHes]; [simpl; lia|].
    cbn [forallb snd] in Hser. apply andb_true_iff in Hser as [Hse Hses].
    cbn [snd] in He. specialize (He Hse). specialize (IHes Hses).
    assert (weight e <= String.length (member_text (k, e)))%nat as Hm
      by (unfold member_text; rewrite !length_app; cbn [snd]; lia).
    destruct es as [|kv' es']; [simpl in *; lia|].
    cbn [map]. rewrite join_cons_cons, !length_app.
    cbn [map] in IHes. simpl in *. lia.
Qed.

(** [JSON.parse(JSON.stringify(v))] is [v] for every serializable [v]. *)
Lemma parse_stringify v :
  serializable v = true -> parse (stringify v) = Some v.
Proof.
  intros Hser. unfold parse.
  pose proof (parse_value_stringify v Hser
                (S (String.length (stringify v))) "") as H.
  rewrite app_empty_r in H. rewrite H; [reflexivity | | reflexivity].
  pose proof (weight_le_length v Hser). lia.
Qed.

End JsonFacts.

Module DbAuthFacts.
Import JsString JsNumber Json DbAuth StringFacts JsonFacts.

Lemma base64_no_semicolon s : all is_base64 s = true -> contains ";" s = false.
Proof.
  induction s as [|c s IH]; [reflexivity|]. simpl. intros H.
  apply andb_true_iff in H as [Hc Hs]. rewrite (IH Hs), orb_false_r.
  by_cases c; try discriminate Hc; reflexivity.
Qed.

Lemma find_session_cookie value :
  contains ";" value = false ->
  find_cookie "session" (split ";" ("session=" ++ value)) = Some value.
Proof.
  intros H. rewrite split_none by (cbn; exact H). reflexivity.
Qed.

Section Session.
Context `{Libs : Libraries}.

(** The session a cookie header carries, once found and not empty. *)
Lemma decryptSession_found this session :
  _getSession this = Some session -> nonempty session = true ->
  _decryptSession this
  = match AES_decrypt session (SESSION_SECRET (host this)) with
    | None => Throw SessionDecryptionError
    | Some decoded =>
        match split ";" decoded with
        | [data; csrf] =>
            match parse data with
            | Some payload => Ok (Some (payload, csrf))
            | None => Throw SessionDecryptionError
            end
        | _ => Throw SessionDecryptionError
        end
    end.
Proof. intros H1 H2. unfold _decryptSession. now rewrite H1, H2. Qed.

Lemma decryptSession_throws this e :
  _decryptSession this = Throw e -> e = SessionDecryptionError.
Proof.
  unfold _decryptSession.
  destruct (_getSession this) as [s|]; [|discriminate].
  destruct (nonempty s); [|discriminate].
  destruct (AES_decrypt _ _) as [d|]; [|now inversion 1].
  destruct (split ";" d) as [|a [|b [|c l]]]; try now inversion 1.
  destruct (parse a); now inversion 1.
Qed.

End Session.

End DbAuthFacts.

Module ReferenceFacts.
Import JsString JsNumber Json DbAuth Reference StringFacts JsonFacts
       SecureHandlerFacts DbAuthFacts.

Lemma unhex_byte c r :
  unhex (Sha256.hex [Z.of_N (N_of_ascii c)] ++ r)
  = match unhex r with
    | Some t => Some (String c t)
    | None => None
    end.
Proof. by_cases c; reflexivity. Qed.

Lemma unhex_hex s : unhex (hex_string s) = Some s.
Proof.
  unfold hex_string, Sha256.bytes_of_string.
  induction s as [|c s IH]; [reflexivity|].
  cbn [list_ascii_of_string map].
  change (Sha256.hex (?b :: ?l)) with (Sha256.hex [b] ++ Sha256.hex l).
  now rewrite unhex_byte, IH.
Qed.

Lemma hex_is_base64 s : all SecureHandler.is_hex s = true -> all is_base64 s = true.
Proof.
  induction s as [|c s IH]; [reflexivity|]. simpl. intros H.
  apply andb_true_iff in H as [Hc Hs]. rewrite (IH Hs), andb_true_r.
  by_cases c; try discriminate Hc; reflexivity.
Qed.

Lemma tag_nonempty key : nonempty (tag key) = true.
Proof.
  unfold tag. destruct (sha256_nonempty (Sha256.bytes_of_string key))
    as (b & r & ->). reflexivity.
Qed.

(** The reference cipher keeps the laws. *)
#[export] Instance reference_laws : CipherLaws.
Proof.
  split.
  - intros message key salt. cbn [AES_decrypt AES_encrypt libraries].
    unfold decrypt, encrypt. now rewrite strip_prefix_app, unhex_hex.
  - intros message key salt. cbn [AES_encrypt libraries]. unfold encrypt. split.
    + pose proof (tag_nonempty key). destruct (tag key); [discriminate | reflexivity].
    + apply hex_is_base64. rewrite all_app. unfold tag, hex_string.
      now rewrite !hex_is_hex.
Qed.

End ReferenceFacts.

Module DbAuthTheorems.
Import JsString JsNumber Json DbAuth Reference DbAuthFixtures StringFacts JsonFacts
       DbAuthFacts ReferenceFacts.

Section Session.
Context `{Libs : Libraries}.

Lemma getSession_cookie this value :
  headers (event this) !! "cookie" = Some ("session=" ++ value) ->
  contains ";" value = false ->
  _getSession this = Some value.
Proof.
  intros H Hv. unfold _getSession. rewrite H. now apply find_session_cookie.
Qed.


(** A payload whose JSON text contains a [;] does not come back: the
    plaintext splits into more than two parts. *)
Lemma decryptSession_semicolon {Laws : CipherLaws} this p t salt :
  contains ";" (stringify p) = true ->
  headers (event this) !! "cookie"
    = Some ("session=" ++ AES_encrypt (stringify p ++ ";" ++ t)
                            (SESSION_SECRET (host this)) salt) ->
  _decryptSession this = Throw SessionDecryptionError.
Proof.
  intros Hp Hcookie.
  destruct (encrypt_base64 (stringify p ++ ";" ++ t)
              (SESSION_SECRET (host this)) salt) as [Hne Hb64].
  rewrite (decryptSession_found this _
             (getSession_cookie this _ Hcookie (base64_no_semicolon _ Hb64))
             Hne).
  rewrite decrypt_encrypt.
  change (stringify p ++ ";" ++ t) with (stringify p ++ String ";" t).
  pose proof (split_many ";" (stringify p) t Hp) as Hlen.
  destruct (split ";" (stringify p ++ String ";" t)) as [|a [|b [|c l]]];
    try reflexivity.
  simpl in Hlen. lia.
Qed.

End Session.



Section Verbs.
Context `{Libs : Libraries}.


Lemma getToken_catch this e :
  _getCurrentUser this = Throw e ->
  getToken this
  = Ok (_logoutResponse this
          (match e with
           | NotLoggedInError => None
           | _ => Some (message e)
           end)).
Proof.
  intros H. unfold getToken. rewrite H. cbn [mbind result_bind try_catch].
  destruct e; reflexivity.
Qed.



End Verbs.

(** C3. On a host in US Pacific time logout's Set-Cookie header is the
    one the test suite records: it starts with [session=;], and its
    Expires attribute is 08:00:00 GMT on 1 January 1970, not
    00:00:00 GMT. *)
Theorem logout_expires_pacific :
  snd (logout (request None)) !! "Set-Cookie"
  = Some "session=;Path=/;Domain=site.test;HttpOnly;SameSite=Strict;Secure;Expires=Thu, 01 Jan 1970 08:00:00 GMT".
Proof. vm_compute. reflexivity. Qed.

End DbAuthTheorems.


(** * Further properties of secureHandler.ts *)

Module SecureHandlerMore.
Import JsString JsNumber SecureHandler SecureHandlerSteps WebhookFixtures
       WebhookEvents StringFacts SecureHandlerFacts SecureHandlerTheorems.

Lemma hex_length bytes :
  String.length (Sha256.hex bytes) = (2 * length bytes)%nat.
Proof. induction bytes as [|b r IH]; simpl; [reflexivity | rewrite IH; lia]. Qed.

Lemma sha256_length msg : length (Sha256.sha256 msg) = 32%nat.
Proof.
  unfold Sha256.sha256. set (st := Sha256.blocks _ _ _).
  unfold Sha256.digest_words. cbn [flat_map Sha256.be_bytes app length].
  reflexivity.
Qed.

Lemma digest_hex_length h : String.length (digest_hex h) = 64%nat.
Proof.
  unfold digest_hex, Sha256.hmac. now rewrite hex_length, sha256_length.
Qed.

#[local] Opaque digest_hex.

Lemma getHmac_key key :
  getHmac (Some key)
  = if String.eqb key "" then forbidden else Ok (createHmac key).
Proof. reflexivity. Qed.


(** The parse step on an envelope followed by text that does not go on
    with a hexadecimal digit. *)
Lemma exec_envelope_then stamp digest post :
  nonempty stamp = true -> all is_digit stamp = true ->
  nonempty digest = true -> all is_hex digest = true ->
  stops is_hex post ->
  exec ("t=" ++ stamp ++ ",v1=" ++ digest ++ post) = Some (stamp, digest).
Proof.
  intros Hs1 Hs2 Hd1 Hd2 Hpost. apply exec_some_here.
  unfold match_here. cbn [strip_prefix append Ascii.eqb Bool.eqb].
  rewrite (span_app is_digit stamp); [|assumption | reflexivity].
  rewrite Hs1. cbn [strip_prefix append Ascii.eqb Bool.eqb].
  rewrite (span_app is_hex digest post Hd2 Hpost). now rewrite Hd1.
Qed.

Lemma exec_skip_no_t pre s : contains "t" pre = false -> exec (pre ++ s) = exec s.
Proof.
  induction pre as [|c pre IH]; [reflexivity|].
  cbn [contains append]. intros H. apply orb_false_iff in H as [Hc Hpre].
  cbn [exec]. unfold match_here at 1. cbn [strip_prefix]. rewrite Hc.
  now apply IH.
Qed.

Lemma verifySignature_parsed env body secret signature options stamp digest :
  exec (ToString signature) = Some (stamp, digest) ->
  verifySignature env body secret signature options
  = after_parse env body secret options stamp digest.
Proof. intros H. unfold verifySignature, after_parse. now rewrite H. Qed.

(** Text around the envelope is ignored: a prefix without the letter t
    and a suffix that does not start with a hexadecimal digit leave
    verifySignature's result as it is for the envelope alone. *)
Theorem verifySignature_padding env body secret options pre stamp digest post :
  contains "t" pre = false ->
  nonempty stamp = true -> all is_digit stamp = true ->
  nonempty digest = true -> all is_hex digest = true ->
  stops is_hex post ->
  verifySignature env body secret
    (Some (pre ++ "t=" ++ stamp ++ ",v1=" ++ digest ++ post)) options
  = verifySignature env body secret
      (Some ("t=" ++ stamp ++ ",v1=" ++ digest)) options.
Proof.
  intros Hpre Hs1 Hs2 Hd1 Hd2 Hpost.
  rewrite (verifySignature_parsed _ _ _ _ _ stamp digest).
  - symmetry. apply verifySignature_parsed. cbn [ToString].
    now apply exec_exact.
  - cbn [ToString]. rewrite exec_skip_no_t by assumption.
    now apply exec_envelope_then.
Qed.

Lemma verifySignature_padding_witness :
  verifySignature utc_host "body" (Some "MY_SECRET")
    (Some ("sig: " ++ "t=" ++ "5" ++ ",v1="
           ++ "233b85f6e9955e1fcd9d9e0106c124bdcb8b44ac4716382a2169cfbac46cbcee"
           ++ " (v1)"))
    (Some {| tolerance := None; timestamp := Some 5 |})
  = verifySignature utc_host "body" (Some "MY_SECRET")
      (Some ("t=" ++ "5" ++ ",v1="
             ++ "233b85f6e9955e1fcd9d9e0106c124bdcb8b44ac4716382a2169cfbac46cbcee"))
      (Some {| tolerance := None; timestamp := Some 5 |}).
Proof.
  apply (verifySignature_padding utc_host "body" (Some "MY_SECRET")
           (Some {| tolerance := None; timestamp := Some 5 |}) "sig: " "5"
           "233b85f6e9955e1fcd9d9e0106c124bdcb8b44ac4716382a2169cfbac46cbcee"
           " (v1)"); reflexivity.
Defined.

Lemma zeros_value zs s :
  all (Ascii.eqb "0") zs = true -> nonempty s = true ->
  Number (zs ++ s) = Number s.
Proof.
  intros Hz Hs. induction zs as [|c zs IH]; [reflexivity|].
  cbn [all] in Hz. apply andb_true_iff in Hz as [Hc Hzs].
  apply Ascii.eqb_eq in Hc. subst c. rewrite <- (IH Hzs). cbn [append].
  unfold Number, NilZero.uint_of_string.
  destruct (zs ++ s) as [|d r] eqn:E.
  - destruct zs; [destruct s; discriminate | discriminate].
  - cbn [NilEmpty.uint_of_string].
    destruct (DecimalString.uint_of_char d (NilEmpty.uint_of_string r));
      reflexivity.
Qed.

(** Zeros before the signed time stamp are ignored: the header with
    them is treated as the header without them. *)
Theorem verifySignature_leading_zeros env body secret options zeros stamp digest :
  all (Ascii.eqb "0") zeros = true ->
  nonempty stamp = true -> all is_digit stamp = true ->
  nonempty digest = true -> all is_hex digest = true ->
  verifySignature env body secret
    (Some ("t=" ++ zeros ++ stamp ++ ",v1=" ++ digest)) options
  = verifySignature env body secret
      (Some ("t=" ++ stamp ++ ",v1=" ++ digest)) options.
Proof.
  intros Hz Hs1 Hs2 Hd1 Hd2.
  assert (all is_digit zeros = true) as Hzd.
  { clear -Hz. induction zeros as [|c z IH]; [reflexivity|].
    cbn [all] in *. apply andb_true_iff in Hz as [Hc Hz].
    apply Ascii.eqb_eq in Hc. subst c. now rewrite (IH Hz). }
  rewrite (verifySignature_parsed _ _ _ _ _ (zeros ++ stamp) digest).
  - rewrite (verifySignature_parsed _ _ _ _ _ stamp digest)
      by (cbn [ToString]; now apply exec_exact).
    unfold after_parse. now rewrite (zeros_value zeros stamp Hz Hs1).
  - cbn [ToString].
    replace (zeros ++ stamp ++ ",v1=" ++ digest)
      with ((zeros ++ stamp) ++ ",v1=" ++ digest) by apply app_assoc.
    apply exec_exact; try assumption.
    + destruct zeros; [exact Hs1 | reflexivity].
    + now rewrite all_app, Hzd, Hs2.
Qed.

Lemma verifySignature_leading_zeros_witness :
  verifySignature utc_host "body" (Some "MY_SECRET")
    (Some ("t=" ++ "000" ++ "5" ++ ",v1="
           ++ "233b85f6e9955e1fcd9d9e0106c124bdcb8b44ac4716382a2169cfbac46cbcee"))
    (Some {| tolerance := None; timestamp := Some 5 |})
  = verifySignature utc_host "body" (Some "MY_SECRET")
      (Some ("t=" ++ "5" ++ ",v1="
             ++ "233b85f6e9955e1fcd9d9e0106c124bdcb8b44ac4716382a2169cfbac46cbcee"))
      (Some {| tolerance := None; timestamp := Some 5 |}).
Proof.
  apply (verifySignature_leading_zeros utc_host "body" (Some "MY_SECRET")
           (Some {| tolerance := None; timestamp := Some 5 |}) "000" "5"
           "233b85f6e9955e1fcd9d9e0106c124bdcb8b44ac4716382a2169cfbac46cbcee");
    reflexivity.
Defined.





(** verify throws the ForbiddenError for every event that has no header
    under the lower-case key, whatever its body, the secret and the
    options: a header stored under another spelling of the name is not
    read. *)
Theorem verify_without_header env event options :
  (hs ← headers event; hs !! "rw-webhook-signature") = None ->
  verify env event options = forbidden.
Proof.
  intros H. unfold verify, signatureFromEvent.
  assert (match headers event with
          | Some hs => hs !! toLowerCase WEBHOOK_SIGNTAURE_HEADER
          | None => None
          end = None) as -> by (destruct (headers event); exact H).
  unfold verifySignature. cbn [ToString].
  replace (exec "undefined") with (@None (string * string)) by reflexivity.
  reflexivity.
Qed.

Lemma verify_without_header_witness :
  verify utc_host uppercase_header_event None = forbidden.
Proof.
  apply (verify_without_header utc_host uppercase_header_event None).
  vm_compute. reflexivity.
Defined.

(** verify accepts every event whose header carries what sign returns
    for the event's body (the empty string when the body is missing)
    with the secret WEBHOOK_SECRET, when checked within the tolerance. *)
Theorem verify_signed_event env event options t signature :
  sign env (default "" (body event)) None (Some t) = Ok signature ->
  (hs ← headers event; hs !! "rw-webhook-signature") = Some signature ->
  0 <= t < 10 ^ 21 ->
  Z.abs (default (Date_now env) (options ≫= timestamp) - t)
    <= default DEFAULT_TOLERANCE (options ≫= tolerance) ->
  verify env event options = Ok true.
Proof.
  intros Hsign Hheader Ht Hwin. unfold verify, signatureFromEvent.
  assert (match headers event with
          | Some hs => hs !! toLowerCase WEBHOOK_SIGNTAURE_HEADER
          | None => None
          end = Some signature) as -> by (destruct (headers event); exact Hheader).
  assert (match body event with
          | Some b => if nonempty b then b else ""
          | None => ""
          end = default "" (body event)) as ->
    by (destruct (body event) as [[|c b]|]; reflexivity).
  apply (verifySignature_signed env _ (Some (WEBHOOK_SECRET env)) t);
    assumption.
Qed.

Lemma verify_signed_event_witness : verify utc_host signed_event None = Ok true.
Proof.
  apply (verify_signed_event utc_host signed_event None 1626000000000
           "t=1626000000000,v1=3ff48769887c3d9a15831037032b45ab8b09f5b6971626572ece9e6a1dbd4df5");
    [vm_compute; reflexivity | vm_compute; reflexivity | lia
    | vm_compute; discriminate].
Defined.


Lemma all_list p l :
  all p (string_of_list_ascii l) = forallb p l.
Proof. induction l as [|c l IH]; [reflexivity | cbn; now rewrite IH]. Qed.

Lemma all_of_list p s : forallb p (list_ascii_of_string s) = all p s.
Proof. induction s as [|c s IH]; [reflexivity | cbn; now rewrite IH]. Qed.

Lemma forallb_rev {A} (p : A -> bool) l : forallb p (rev l) = forallb p l.
Proof.
  induction l as [|x l IH]; [reflexivity|].
  cbn [rev forallb]. rewrite forallb_app, IH. cbn. rewrite andb_true_r.
  apply andb_comm.
Qed.

Lemma strip_zeros_rev_all p l :
  forallb p l = true -> forallb p (strip_zeros_rev l) = true.
Proof.
  induction l as [|c l IH]; [reflexivity|]. intros H.
  cbn [forallb] in H. apply andb_true_iff in H as [Hc Hl].
  destruct c as [[|] [|] [|] [|] [|] [|] [|] [|]]; cbn [strip_zeros_rev];
    try (cbn [forallb]; now rewrite Hc, Hl); now apply IH.
Qed.

Lemma significant_all p s : all p s = true -> all p (significant s) = true.
Proof.
  intros H. unfold significant. rewrite all_list, forallb_rev.
  apply strip_zeros_rev_all. now rewrite forallb_rev, all_of_list.
Qed.

Lemma all_weaken (p q : ascii -> bool) s :
  (forall c, p c = true -> q c = true) -> all p s = true -> all q s = true.
Proof.
  intros Hpq. induction s as [|c s IH]; [reflexivity|]. cbn [all].
  intros H. apply andb_true_iff in H as [Hc Hs].
  now rewrite (Hpq c Hc), (IH Hs).
Qed.

Lemma digit_numeric c : is_digit c = true -> is_numeric c = true.
Proof. intros H. unfold is_numeric. now rewrite H. Qed.

Lemma decimal_numeric n : all is_numeric (decimal n) = true.
Proof.
  apply (all_weaken is_digit); [apply digit_numeric|].
  apply decimal_digits.
Qed.

Lemma natToString_numeric n : all is_numeric (natToString n) = true.
Proof.
  unfold natToString. destruct (n <? 10 ^ 21)%N; [apply decimal_numeric|].
  pose proof (significant_all is_numeric _ (decimal_numeric n)) as H.
  destruct (significant (decimal n)) as [|d [|d' r]].
  - apply decimal_numeric.
  - cbn [all] in H |- *. apply andb_true_iff in H as [Hd _]. rewrite Hd.
    cbn [append all]. now rewrite decimal_numeric.
  - remember (String d' r) as r' eqn:Er. clear Er.
    cbn [all] in H. apply andb_true_iff in H as [Hd Hr].
    cbn [all append]. rewrite Hd. change (is_numeric ".") with true.
    cbn [andb]. rewrite all_app, Hr.
    cbn [all append andb]. now rewrite decimal_numeric.
Qed.

Lemma toString_numeric z : all is_numeric (toString z) = true.
Proof.
  unfold toString. destruct (z <? 0); [|apply natToString_numeric].
  cbn [all]. now rewrite natToString_numeric.
Qed.

Lemma all_excludes p c s : p c = false -> all p s = true -> contains c s = false.
Proof.
  intros Hc. induction s as [|d s IH]; [reflexivity|]. cbn [all contains].
  intros H. apply andb_true_iff in H as [Hd Hs]. rewrite (IH Hs).
  destruct (Ascii.eqb_spec c d) as [->|]; [congruence | reflexivity].
Qed.

Lemma exec_without_t s : contains "t" s = false -> exec s = None.
Proof.
  intros H. rewrite <- (app_empty_r s). now rewrite exec_skip_no_t.
Qed.

Lemma exec_cons c s :
  exec (String c s)
  = match match_here (String c s) with
    | Some m => Some m
    | None => exec s
    end.
Proof. reflexivity. Qed.

(** A header that sign made for a negative time stamp is refused by
    verifySignature, whatever the options: the minus sign is not a
    digit, and nothing after it has the letter t. *)
Theorem sign_negative_refused env body secret t signature options :
  sign env body secret (Some t) = Ok signature -> t < 0 ->
  verifySignature env body secret (Some signature) options = forbidden.
Proof.
  intros Hsign Hneg. rewrite sign_spec in Hsign.
  destruct (String.eqb_spec (default (WEBHOOK_SECRET env) secret) "")
    as [|Hkey]; [discriminate|].
  injection Hsign as <-.
  assert (all is_hex (expected_digest (default (WEBHOOK_SECRET env) secret) t body)
          = true) as Hhex by apply digest_hex_shape.
  remember (expected_digest _ _ _) as digest eqn:Ed. clear Ed.
  assert (exec ("t=" ++ toString t ++ ",v1=" ++ digest) = None) as E.
  { unfold toString. destruct (Z.ltb_spec t 0) as [_|]; [|lia].
    pose proof (natToString_numeric (Z.to_N (- t))) as Hn.
    remember (natToString _) as n eqn:En. clear En.
    change ("t=" ++ String "-" n ++ ",v1=" ++ digest)
      with (String "t" (String "=" (String "-" (n ++ ",v1=" ++ digest)))).
    rewrite exec_cons.
    assert (match_here
              (String "t" (String "=" (String "-" (n ++ ",v1=" ++ digest))))
            = None) as -> by reflexivity.
    apply exec_without_t.
    change (contains "t" (String "=" (String "-" (n ++ ",v1=" ++ digest))))
      with (contains "t" (n ++ ",v1=" ++ digest)).
    rewrite contains_app, (all_excludes is_numeric "t" n eq_refl Hn).
    exact (all_excludes is_hex "t" digest eq_refl Hhex). }
  unfold verifySignature. cbn [ToString].
  change (exec (String "t" (String "=" (toString t ++ String ","
            (String "v" (String "1" (String "=" digest)))))))
    with (exec ("t=" ++ toString t ++ ",v1=" ++ digest)).
  now rewrite E.
Qed.

Lemma sign_negative_refused_witness :
  verifySignature utc_host "body" (Some "MY_SECRET")
    (Some "t=-5,v1=a67fda897249156d6cf32991e5928282add647d819c2eda0c7d2b2490d270440")
    (Some {| tolerance := None; timestamp := Some (-5) |})
  = forbidden.
Proof.
  apply (sign_negative_refused utc_host "body" (Some "MY_SECRET") (-5));
    [vm_compute; reflexivity | lia].
Defined.

Lemma verifySignature_empty_key env body secret signature options :
  default (WEBHOOK_SECRET env) secret = "" ->
  verifySignature env body secret signature options = forbidden.
Proof.
  intros Hkey. unfold verifySignature. rewrite Hkey.
  destruct (exec _) as [[m1 m2]|]; [|reflexivity].
  now destruct (_ >? _).
Qed.

(** On a host where WEBHOOK_SECRET is unset or empty nothing is signed
    and nothing verifies by default: verify refuses every event, and
    sign and verifySignature called without a secret throw the
    ForbiddenError. *)
Theorem unset_secret_refuses env :
  WEBHOOK_SECRET env = "" ->
  (forall event options, verify env event options = forbidden)
  /\ (forall body signature options,
        verifySignature env body None signature options = forbidden)
  /\ (forall body timestamp, sign env body None timestamp = forbidden).
Proof.
  intros Hkey. split; [|split].
  - intros event options. unfold verify.
    now apply verifySignature_empty_key.
  - intros body signature options. now apply verifySignature_empty_key.
  - intros body timestamp. unfold sign. cbn [default from_option id].
    now rewrite Hkey.
Qed.

Lemma unset_secret_refuses_witness :
  (forall event options, verify unset_host event options = forbidden)
  /\ (forall body signature options,
        verifySignature unset_host body None signature options = forbidden)
  /\ (forall body timestamp, sign unset_host body None timestamp = forbidden).
Proof. apply (unset_secret_refuses unset_host). reflexivity. Defined.

End SecureHandlerMore.


(** * The mock credential store *)

Module TableMockFacts.
Import JsString Json TableMock.

Lemma strict_equal_refl v : primitive v = true -> strict_equal (Some v) (Some v) = true.
Proof.
  destruct v as [|b|z|s|l|l]; try discriminate; intros _; cbn.
  - reflexivity.
  - now destruct b.
  - apply Z.eqb_refl.
  - apply String.eqb_refl.
Qed.


(** findUnique after create: a record found before is still the one
    found; when none was found, the new record is found if its field is
    identical to the filter's value, and nothing otherwise. *)
Lemma create_findUnique_eq draw data this where_ :
  findUnique where_ (fst (create draw data this))
  = match findUnique where_ this with
    | Some record => Some record
    | None =>
        if strict_equal (snd (create draw data this) !! first_key where_)
                        (where_value where_ (first_key where_))
        then Some (snd (create draw data this)) else None
    end.
Proof.
  unfold findUnique.
  assert (records (fst (create draw data this))
          = (records this ++ [snd (create draw data this)])%list)
    as -> by reflexivity.
  induction (records this) as [|r rs IH]; cbn [List.find app].
  - now destruct (strict_equal _ _).
  - destruct (strict_equal (r !! first_key where_) _); [reflexivity | exact IH].
Qed.

(** create never hides a record: what findUnique found before a create
    it finds after it. *)
Theorem create_keeps_found draw data this where_ record :
  findUnique where_ this = Some record ->
  findUnique where_ (fst (create draw data this)) = Some record.
Proof. intros H. now rewrite create_findUnique_eq, H. Qed.

Lemma create_keeps_found_witness :
  findUnique [("email", Some (JStr "rob@redwoodjs.com"))]
    (fst (create 8 stored_user user_table))
  = Some stored_user.
Proof.
  apply (create_keeps_found 8 stored_user user_table
           [("email", Some (JStr "rob@redwoodjs.com"))] stored_user).
  vm_compute. reflexivity.
Defined.

(** A record created without an id is found again by the id it was
    given, unless an earlier record has that id. *)
Theorem create_then_find_by_id draw data this :
  data !! "id" = None ->
  findUnique [("id", Some (JNum draw))] this = None ->
  findUnique [("id", Some (JNum draw))] (fst (create draw data this))
  = Some (snd (create draw data this)).
Proof.
  intros Hid Hnone. rewrite create_findUnique_eq, Hnone.
  cbn [first_key where_value]. rewrite String.eqb_refl.
  unfold create. rewrite Hid. cbn [snd]. rewrite lookup_insert_eq.
  cbn. now rewrite Z.eqb_refl.
Qed.

Lemma create_then_find_by_id_witness :
  findUnique [("id", Some (JNum 8))]
    (fst (create 8 {[ "email" := JStr "tom@redwoodjs.com" ]} user_table))
  = Some (snd (create 8 {[ "email" := JStr "tom@redwoodjs.com" ]} user_table)).
Proof.
  apply (create_then_find_by_id 8 {[ "email" := JStr "tom@redwoodjs.com" ]}
           user_table); vm_compute; reflexivity.
Defined.

(** A record is found by any field that holds a number, a string, a
    boolean or null, when no earlier record has that value there. *)
Theorem create_then_find_by_field draw data this field value :
  snd (create draw data this) !! field = Some value ->
  primitive value = true ->
  findUnique [(field, Some value)] this = None ->
  findUnique [(field, Some value)] (fst (create draw data this))
  = Some (snd (create draw data this)).
Proof.
  intros Hfield Hprim Hnone. rewrite create_findUnique_eq, Hnone.
  cbn [first_key where_value]. rewrite String.eqb_refl, Hfield.
  now rewrite strict_equal_refl.
Qed.

Lemma create_then_find_by_field_witness :
  findUnique [("email", Some (JStr "rob@redwoodjs.com"))]
    (fst (createDbUser 7 (new "user")))
  = Some (snd (createDbUser 7 (new "user"))).
Proof.
  apply (create_then_find_by_field 7 _ (new "user") "email"
           (JStr "rob@redwoodjs.com")); vm_compute; reflexivity.
Defined.



(** With an empty filter findUnique compares the field named
    [undefined] with [undefined]: it returns the first record, when no
    record has such a field. *)
Theorem findUnique_empty_filter this :
  Forall (fun record => record !! "undefined" = None) (records this) ->
  findUnique [] this = head (records this).
Proof.
  unfold findUnique. cbn [first_key where_value].
  destruct (records this) as [|r rs]; [reflexivity|].
  intros H. apply Forall_cons in H as [Hr _].
  cbn [List.find head]. now rewrite Hr.
Qed.

Lemma findUnique_empty_filter_witness :
  findUnique [] user_table = head (records user_table).
Proof.
  apply (findUnique_empty_filter user_table).
  apply Forall_cons. split; [vm_compute; reflexivity | apply Forall_nil; exact I].
Defined.

Lemma DbMock_lookup_aux accessors (m : gmap string TableMock) a :
  foldl (fun this accessor => <[accessor := new accessor]> this) m accessors !! a
  = if bool_decide (a ∈ accessors) then Some (new a) else m !! a.
Proof.
  revert m. induction accessors as [|x xs IH]; intros m; cbn [foldl].
  - rewrite bool_decide_eq_false_2; [reflexivity | apply not_elem_of_nil].
  - rewrite IH. destruct (decide (a ∈ xs)) as [Hin|Hnin].
    + rewrite !bool_decide_eq_true_2; [reflexivity | now right | assumption].
    + rewrite (bool_decide_eq_false_2 _ Hnin).
      destruct (decide (a = x)) as [->|Hne].
      * rewrite bool_decide_eq_true_2 by now left. apply lookup_insert_eq.
      * rewrite bool_decide_eq_false_2.
        -- now apply lookup_insert_ne.
        -- intros H. apply elem_of_cons in H as [|]; contradiction.
Qed.


End TableMockFacts.
